(** * Project/utils/io.py: dataset discovery and target selection

    A shallow embedding of the three public helpers of the module,
    [find_csv], [load_dataset] and [guess_target_column], together with
    the private [_is_binary], and the properties of them that the
    specification states.

    Conventions of the embedding.
    - A Python [str] is a [string]; every character is read as the code
      point of the same number (0..255).
    - A Python exception is a value of [exn]; a call that may raise
      returns a [result].
    - The process environment is passed in: [os.getenv(k)] is an
      [option string] argument.
    - The file system [fs] gives, for a path, what [os.stat] answers on
      it; [pathlib.Path(p).exists()] is computed from that answer as
      pathlib does (Python 3.8 to 3.12, POSIX), so it answers true or
      false or raises [OSError]. Every call of it is logged, so that
      the order and number of the checks are visible.
    - A column is its dtype and its cells; a cell is a missing value, a
      [bool], an [int] or a [str]. A frame is the list of its labelled
      columns in column order; labels are strings and may repeat, in
      which case [df[col]] is a frame and not a column.
    - [safe_col], imported from [Project.utils.sanitize], and
      [pd.read_csv] are parameters. *)

From Stdlib Require Import ZArith Ascii String DecimalString Lia.
From Stdlib Require DecimalPos DecimalZ.
From stdpp Require Import base decidable option list strings gmap sets.

#[local] Set Warnings "-clear-no-such-hyp".

Local Open Scope string_scope.
Local Open Scope list_scope.
Local Open Scope nat_scope.

(** ** Python strings *)

Module PyStr.

(** [str.isspace] on one character: TAB..CR, FS..US, SPACE, NEL, NBSP. *)
Definition isspace (c : ascii) : bool :=
  let n := nat_of_ascii c in
  (((9 <=? n) && (n <=? 13)) || ((28 <=? n) && (n <=? 32))
   || (n =? 133) || (n =? 160))%nat.

Fixpoint lstrip (s : string) : string :=
  match s with
  | EmptyString => EmptyString
  | String c s' => if isspace c then lstrip s' else s
  end.

Fixpoint rstrip (s : string) : string :=
  match s with
  | EmptyString => EmptyString
  | String c s' =>
      match rstrip s' with
      | EmptyString => if isspace c then EmptyString else String c EmptyString
      | r => String c r
      end
  end.

(** [s.strip()] *)
Definition strip (s : string) : string := rstrip (lstrip s).

(** [str.lower] on one character: A..Z and the capital letters of the
    upper half (all of 192..222 but the multiplication sign 215). *)
Definition lower_char (c : ascii) : ascii :=
  let n := nat_of_ascii c in
  if (((65 <=? n) && (n <=? 90))
      || ((192 <=? n) && (n <=? 222) && negb (n =? 215)))%nat
  then ascii_of_nat (n + 32) else c.

(** [s.lower()] *)
Fixpoint lower (s : string) : string :=
  match s with
  | EmptyString => EmptyString
  | String c s' => String (lower_char c) (lower s')
  end.

(** [s.startswith(p)] *)
Definition startswith (s p : string) : bool := String.prefix p s.

(** [not s], the truth value of a string being false *)
Definition falsy (s : string) : bool := String.eqb s "".

(** [str(z)] for an int *)
Definition of_int (z : Z) : string := NilZero.string_of_int (Z.to_int z).

(** [str(b)] for a bool *)
Definition of_bool (b : bool) : string := if b then "True" else "False".

End PyStr.

(** ** Exceptions and results *)

Inductive exn : Type :=
| FileNotFoundError (msg : string)
| ValueError (msg : string)
| AttributeError (msg : string)
| KeyError (key : string)
| ParserError (msg : string)
| OSError (errno : Z).

Inductive result (A : Type) : Type :=
| Ok (a : A)
| Raise (e : exn).

Arguments Ok {A} a.
Arguments Raise {A} e.

(** Sequencing of calls that may raise. *)
Class Monad (M : Type -> Type) : Type := {
  ret : forall {A}, A -> M A;
  bind : forall {A B}, M A -> (A -> M B) -> M B
}.

Notation "x <- m ;; k" := (bind m (fun x => k))
  (at level 100, m at next level, right associativity).

#[global] Instance result_monad : Monad result := {
  ret _ a := Ok a;
  bind _ _ r f := match r with Ok a => f a | Raise e => Raise e end
}.

(** ** The file system

    What [os.stat] answers on a path: the path is there, or the call
    raises [OSError] with an error number, or it raises [ValueError]
    because the path cannot be encoded (an embedded null character). *)

Inductive stat_result : Type :=
| Found
| Failed (errno : Z)
| Unencodable.

Definition FileSystem : Type := string -> stat_result.

(** Error numbers, as Linux has them. [PermissionError] is [OSError]
    with [EACCES], [FileNotFoundError] from [os.stat] is [OSError] with
    [ENOENT]. *)
Definition ENOENT : Z := 2.
Definition EBADF : Z := 9.
Definition EACCES : Z := 13.
Definition ENOTDIR : Z := 20.
Definition ENAMETOOLONG : Z := 36.
Definition ELOOP : Z := 40.

(** [pathlib._ignore_error], on the error number *)
Definition _ignore_error (errno : Z) : bool :=
  existsb (Z.eqb errno) [ENOENT; ENOTDIR; EBADF; ELOOP].

(** What [pathlib.Path(p).exists()] does with the answer of [os.stat]:
    true when the path is there; false on an ignored error number and
    on [ValueError]; any other [OSError] is raised again. *)
Definition exists_answer (st : stat_result) : result bool :=
  match st with
  | Found => Ok true
  | Failed errno => if _ignore_error errno then Ok false else Raise (OSError errno)
  | Unencodable => Ok false
  end.

(** ** Calls that look at the file system

    A computation reads the file system [fs] and yields its result
    together with the paths it asked [fs] about, in the order of the
    calls. An exception ends the computation, keeping the log so far. *)

Definition IO (A : Type) : Type := FileSystem -> result A * list string.

#[global] Instance io_monad : Monad IO := {
  ret _ a := fun _ => (Ok a, []);
  bind _ _ m f := fun fs =>
    match m fs with
    | (Ok a, log) => let '(r, log') := f a fs in (r, (log ++ log')%list)
    | (Raise e, log) => (Raise e, log)
    end
}.

(** [raise e] *)
Definition raise {A} (e : exn) : IO A := fun _ => (Raise e, []).

(** [pathlib.Path(p).exists()] *)
Definition path_exists (p : string) : IO bool :=
  fun fs => (exists_answer (fs p), [p]).

(** The answer of one existence check. *)
Definition answer (fs : FileSystem) (p : string) : result bool :=
  exists_answer (fs p).

(** The outcome of a computation, and the checks it made. *)
Definition outcome {A} (m : IO A) (fs : FileSystem) : result A := fst (m fs).
Definition probes {A} (m : IO A) (fs : FileSystem) : list string := snd (m fs).

(** ** The part of pandas the module relies on *)

Module Pandas.

(** A cell of a column: a missing value ([None] or [NaN], what [isna]
    answers true on), a [bool], an [int] or a [str]. Floating-point
    cells other than [NaN] are not part of this model. *)
Inductive cell : Type :=
| NA
| VBool (b : bool)
| VInt (z : Z)
| VStr (s : string).

Inductive numpy_dtype : Type := np_bool | np_int64 | np_object.

Record Series : Type := mkSeries { dtype : numpy_dtype; values : list cell }.

(** A frame is the sequence of its columns, each with its label, in
    column order; pandas does not require the labels to be distinct. *)
Definition DataFrame : Type := list (string * Series).

Definition dtype_eqb (a b : numpy_dtype) : bool :=
  match a, b with
  | np_bool, np_bool | np_int64, np_int64 | np_object, np_object => true
  | _, _ => false
  end.

Definition isna (c : cell) : bool :=
  match c with NA => true | _ => false end.

(** [series.dropna()], on the values *)
Definition dropna (l : list cell) : list cell :=
  List.filter (fun c => negb (isna c)) l.

(** Equality of two cells as the hash table behind [unique] sees it:
    Python's [==], under which [True == 1] and [False == 0]. *)
Definition py_eqb (u v : cell) : bool :=
  match u, v with
  | NA, NA => true
  | VBool a, VBool b => Bool.eqb a b
  | VInt a, VInt b => Z.eqb a b
  | VBool a, VInt z | VInt z, VBool a => Z.eqb (Z.b2z a) z
  | VStr a, VStr b => String.eqb a b
  | _, _ => false
  end.

Fixpoint unique_from (seen l : list cell) : list cell :=
  match l with
  | [] => []
  | x :: l' =>
      if existsb (py_eqb x) seen then unique_from seen l'
      else x :: unique_from (x :: seen) l'
  end.

(** [.unique()]: the distinct values, each at its first occurrence *)
Definition unique (l : list cell) : list cell := unique_from [] l.

(** [str(v)] *)
Definition py_str (v : cell) : string :=
  match v with
  | NA => "nan"
  | VBool b => PyStr.of_bool b
  | VInt z => PyStr.of_int z
  | VStr s => s
  end.

(** [df.columns], as [list(df.columns)] gives it *)
Definition columns (df : DataFrame) : list string := map fst df.

(** [name in df.columns] *)
Definition has_column (df : DataFrame) (name : string) : bool :=
  existsb (String.eqb name) (columns df).

(** What [df[col]] evaluates to for a label of the frame: the column
    when one column bears the label, and the sub-frame of all the
    columns that bear it when several do. *)
Inductive item : Type :=
| ItemSeries (s : Series)
| ItemFrame (sub : DataFrame).

Definition getitem (df : DataFrame) (col : string) : option item :=
  match List.filter (fun kv => String.eqb (fst kv) col) df with
  | [] => None
  | [(_, s)] => Some (ItemSeries s)
  | sub => Some (ItemFrame sub)
  end.

(** [df.rename(columns={old: new})] *)
Definition rename_column (old new : string) (df : DataFrame) : DataFrame :=
  map (fun kv => if String.eqb (fst kv) old then (new, snd kv) else kv) df.

End Pandas.

Import Pandas.

(** ** The module *)

Section Io.

(** [REPO_ROOT], the resolved directory two levels above the module's. *)
Variable REPO_ROOT : string.

(** [Project.utils.sanitize.safe_col] *)
Variable safe_col : string -> string.

(** [pd.read_csv] on the files as they are on disk *)
Variable read_csv : string -> result DataFrame.

(** [str(REPO_ROOT / rel)] for a resolved, hence absolute, root: the
    root directory itself is the only one written with a final slash. *)
Definition joinpath (root rel : string) : string :=
  if String.eqb root "/" then String.append "/" rel
  else String.append root (String.append "/" rel).

Definition candidates : list string :=
  map (joinpath REPO_ROOT)
    [ "src/data/modeldata.csv";
      "src/data/modeldata_demo.csv";
      "Project/src/data/modeldata.csv";
      "Project/src/data/modeldata_demo.csv";
      "src/data/datasets/tabular/modeldata.csv";
      "src/data/datasets/tabular/modeldata_demo.csv" ].

Definition not_found_message : string :=
  "Could not locate dataset. Set CSV_PATH or place modeldata.csv under src/data/.".

(** The [for candidate in candidates] loop and the [raise] after it. *)
Fixpoint search (cands : list string) : IO string :=
  match cands with
  | [] => raise (FileNotFoundError not_found_message)
  | candidate :: rest =>
      found <- path_exists candidate ;;
      if found then ret candidate else search rest
  end.

(** [find_csv()], with [CSV_PATH] the value of [os.getenv("CSV_PATH")]. *)
Definition find_csv (CSV_PATH : option string) : IO string :=
  match CSV_PATH with
  | Some env =>
      hit <- (if PyStr.falsy env then ret false else path_exists env) ;;
      if hit then ret env else search candidates
  | None => search candidates
  end.

(** [load_dataset()] *)
Definition load_dataset (CSV_PATH : option string) : IO DataFrame :=
  path <- find_csv CSV_PATH ;;
  match read_csv path with
  | Raise e => raise e
  | Ok df =>
      if negb (has_column df "IsInsurable") && has_column df "SLA_Breached"
      then ret (rename_column "SLA_Breached" "IsInsurable" df)
      else ret df
  end.

Definition binary_words : gset string :=
  {[ "yes"; "no"; "true"; "false"; "0"; "1" ]}.

(** [_is_binary(series)] for a series *)
Definition _is_binary (series : Series) : bool :=
  if dtype_eqb (dtype series) np_bool then true
  else
    let values := unique (dropna (values series)) in
    if (length values =? 0)%nat then false
    else if (length values <=? 2)%nat then true
    else
      let lowered : gset string :=
        list_to_set
          (map (fun v => PyStr.lower (PyStr.strip (py_str v)))
             (List.filter
                (fun v => negb (String.eqb (PyStr.strip (py_str v)) ""))
                values)) in
      bool_decide (lowered ⊆ binary_words).

(** [_is_binary(df[col])] for a label [col] of the frame. Handed a
    sub-frame, [_is_binary] raises at its first line: a frame has no
    attribute [dtype], and when the label itself is [dtype] the
    attribute access yields the sub-frame, whose truth value raises. *)
Definition _is_binary_at (df : DataFrame) (col : string) : result bool :=
  match getitem df col with
  | None => Raise (KeyError col)
  | Some (ItemSeries series) => Ok (_is_binary series)
  | Some (ItemFrame _) =>
      if String.eqb col "dtype"
      then Raise (ValueError "The truth value of a DataFrame is ambiguous. Use a.empty, a.bool(), a.item(), a.any() or a.all().")
      else Raise (AttributeError "'DataFrame' object has no attribute 'dtype'")
  end.

(** [[col for col in cols if _is_binary(df[col])]] *)
Fixpoint binary_columns (df : DataFrame) (cols : list string)
  : result (list string) :=
  match cols with
  | [] => Ok []
  | col :: rest =>
      b <- _is_binary_at df col ;;
      tail <- binary_columns df rest ;;
      ret (if (b : bool) then col :: tail else tail)
  end.

(** The inner [_resolve(name)] of [guess_target_column]. *)
Definition _resolve (df : DataFrame) (name : option string) : option string :=
  match name with
  | None => None
  | Some name =>
      if PyStr.falsy name then None
      else
        let name_clean := PyStr.strip name in
        let variants := [name_clean; safe_col name_clean] in
        List.find (has_column df) variants
  end.

(** Truth value of an [Optional[str]], and [a or b] on two of them. *)
Definition truthy (o : option string) : bool :=
  match o with
  | Some s => negb (PyStr.falsy s)
  | None => false
  end.

Definition py_or (a b : option string) : option string :=
  if truthy a then a else b.

(** The part of [guess_target_column] after [if explicit: return]. *)
Definition fallback (df : DataFrame) (cands : list string) : result string :=
  binary_cols <- binary_columns df cands ;;
  let prioritised :=
    List.filter (fun col => PyStr.startswith (PyStr.lower col) "i") binary_cols in
  match prioritised with
  | first :: _ => Ok first
  | [] =>
      match binary_cols with
      | first :: _ => Ok first
      | [] => Ok (List.last cands "")
      end
  end.

Definition empty_table_message : string :=
  "Dataframe has no columns to select a target from.".

(** [guess_target_column(df, preferred)], with [TARGET] the value of
    [os.getenv("TARGET")]. *)
Definition guess_target_column
    (df : DataFrame) (preferred TARGET : option string) : result string :=
  let cands := columns df in
  match cands with
  | [] => Raise (ValueError empty_table_message)
  | _ :: _ =>
      let env_target := TARGET in
      let explicit :=
        py_or (py_or (_resolve df preferred) (_resolve df env_target))
              (_resolve df (Some "IsInsurable")) in
      match explicit with
      | Some name => if truthy explicit then Ok name else fallback df cands
      | None => fallback df cands
      end
  end.

End Io.

(** ** The behaviour as the specification words it

    These definitions follow the sentences of the specification, not the
    code; the theorems below compare the two. *)

(** What [unique] identifies: a [bool] counts as the [int] it equals. *)
Definition value_key (c : cell) : option (Z + string) :=
  match c with
  | NA => None
  | VBool b => Some (inl (Z.b2z b))
  | VInt z => Some (inl z)
  | VStr s => Some (inr s)
  end.

(** The set of distinct values of a list of cells. *)
Definition value_set (l : list cell) : gset (option (Z + string)) :=
  list_to_set (value_key <$> l).

(** A value "stripped of whitespace, lower-cased", and a blank value. *)
Definition normalised (v : cell) : string :=
  PyStr.lower (PyStr.strip (py_str v)).

Definition blank (v : cell) : bool :=
  String.eqb (PyStr.strip (py_str v)) "".

(** Clauses (b) and (c) of binary detection, on the non-missing values. *)
Definition few_values (l : list cell) : Prop := size (value_set l) ≤ 2.

Definition yes_no_values (l : list cell) : Prop :=
  ∀ v, In v l → blank v = false → normalised v ∈ binary_words.

(** Binary detection as the code decides it: a natively boolean column
    is binary whatever it holds; any other column needs a non-missing
    value and one of (b), (c). *)
Definition binary_described (s : Series) : Prop :=
  dtype s = np_bool
  ∨ (dropna (values s) ≠ []
     ∧ (few_values (dropna (values s)) ∨ yes_no_values (dropna (values s)))).

(** Binary detection as the sentence has it: (a) or (b) or (c), and
    never for a column with no non-missing value. *)
Definition binary_claimed (s : Series) : Prop :=
  dropna (values s) ≠ []
  ∧ (dtype s = np_bool
     ∨ few_values (dropna (values s)) ∨ yes_no_values (dropna (values s))).

(** Whether a value passes clause (c): blank, or one of the six words. *)
Definition passes (v : cell) : bool :=
  blank v || bool_decide (normalised v ∈ binary_words).

(** "Whose name, case-insensitively, starts with I". *)
Definition starts_with_I (col : string) : bool :=
  match col with
  | String c _ => Ascii.eqb c "I" || Ascii.eqb c "i"
  | EmptyString => false
  end.

(** The first column, in table order, that is binary and whose label
    satisfies [p]. *)
Definition first_binary (p : string -> bool) (df : DataFrame) : option string :=
  fst <$> List.find (fun kv => _is_binary (snd kv) && p (fst kv)) df.

(** The last column in table order. *)
Definition last_column (df : DataFrame) : option string :=
  List.last (Some <$> columns df) None.

(** "The first step that succeeds determines the result." *)
Definition first_success (steps : list (option string)) : option string :=
  fold_right (fun o later => match o with Some _ => o | None => later end)
    None steps.

Section Described.

Variable safe_col : string -> string.
Variable df : DataFrame.

(** Name resolution as the sentence has it: trim, then the name itself
    if it is a column, else its sanitized form if that is a column. *)
Definition resolve_claimed (name : option string) : option string :=
  match name with
  | None => None
  | Some n =>
      let trimmed := PyStr.strip n in
      if has_column df trimmed then Some trimmed
      else if has_column df (safe_col trimmed) then Some (safe_col trimmed)
      else None
  end.

(** Name resolution as the code decides it: an empty candidate is not
    looked up, and a match that is the empty string is no success. *)
Definition resolve_described (name : option string) : option string :=
  match name with
  | None | Some EmptyString => None
  | Some n =>
      match resolve_claimed (Some n) with
      | Some EmptyString => None
      | found => found
      end
  end.

(** The six steps, over a given resolution of names. *)
Definition selection (resolve : option string -> option string)
    (preferred TARGET : option string) : option string :=
  first_success
    [ resolve preferred;
      resolve TARGET;
      resolve (Some "IsInsurable");
      first_binary starts_with_I df;
      first_binary (fun _ => true) df;
      last_column df ].

End Described.

(** A resolution without a usable match: no match, or the empty name. *)
Definition no_match (r : option string) : Prop := r = None ∨ r = Some "".

(** The rename of [load_dataset], label by label. *)
Definition renamed_label (c : string) : string :=
  if String.eqb c "SLA_Breached" then "IsInsurable" else c.

(** [sub] occurs in [s]. *)
Definition occurs_in (sub s : string) : Prop :=
  ∃ pre post, s = String.append pre (String.append sub post).

(** ** Sample data *)

Module Sample.

Definition amounts : Series := mkSeries np_int64 [VInt 10; VInt 25; VInt 40].
Definition flags : Series := mkSeries np_int64 [VInt 0; VInt 1; VInt 1].
Definition answers : Series :=
  mkSeries np_object [VStr "yes"; VStr " No"; NA; VStr "TRUE "; VStr ""].
Definition no_rows : Series := mkSeries np_bool [].

Definition fraud : DataFrame :=
  [("id", amounts); ("IsFraud", flags); ("Amount", amounts)].
Definition unnamed : DataFrame := [("", amounts); ("x", amounts)].
Definition twice : DataFrame := [("a", amounts); ("a", amounts)].
Definition legacy : DataFrame :=
  [("id", amounts); ("SLA_Breached", flags); ("Amount", amounts)].

Definition sanitize (name : string) : string := PyStr.lower name.

Definition only (path : string) : FileSystem :=
  fun p => if String.eqb p path then Found else Failed ENOENT.
Definition only_cwd : FileSystem := only "".
Definition only_demo : FileSystem := only "/repo/src/data/modeldata_demo.csv".
Definition only_override : FileSystem := only "/tmp/data.csv".
Definition nothing : FileSystem := fun _ => Failed ENOENT.

(** A name of 300 characters, above the 255 a file name may have, and
    a file system that refuses such names. *)
Definition too_long : string := string_of_list_ascii (repeat "x"%char 300).
Definition name_limit (inner : FileSystem) : FileSystem :=
  fun p => if 255 <? String.length p then Failed ENAMETOOLONG else inner p.
Definition read_legacy (p : string) : result DataFrame := Ok legacy.

End Sample.

(** ** Descriptions used by the further properties *)

(** The paths the candidate loop asks about: the candidates up to and
    including the first one whose check does not answer false. *)
Fixpoint checked (fs : FileSystem) (cands : list string) : list string :=
  match cands with
  | [] => []
  | c :: rest =>
      match answer fs c with
      | Ok false => c :: checked fs rest
      | _ => [c]
      end
  end.

(** What the candidate loop ends in: the first candidate whose check
    does not answer false decides, by being returned or by the error of
    its check; when every check answers false, the error of [find_csv]. *)
Fixpoint first_existing (fs : FileSystem) (cands : list string)
  : result string :=
  match cands with
  | [] => Raise (FileNotFoundError not_found_message)
  | c :: rest =>
      match answer fs c with
      | Ok true => Ok c
      | Ok false => first_existing fs rest
      | Raise e => Raise e
      end
  end.

(** Whether [os.stat] found the path. *)
Definition is_found (st : stat_result) : bool :=
  match st with Found => true | _ => false end.

(** The paths [find_csv] may ask about, in its order: [CSV_PATH] when
    it is set and not empty, then the candidates. *)
Definition search_order (cands : list string) (CSV_PATH : option string)
  : list string :=
  match CSV_PATH with
  | Some p => if String.eqb p "" then cands else p :: cands
  | None => cands
  end.

(** The table [load_dataset] returns for a parsed table [df]. *)
Definition adjusted (df : DataFrame) : DataFrame :=
  if negb (has_column df "IsInsurable") && has_column df "SLA_Breached"
  then rename_column "SLA_Breached" "IsInsurable" df
  else df.

(** A string that [strip] and [lower] leave as it is, character by
    character: no whitespace and no capital letter. *)
Fixpoint plain (s : string) : bool :=
  match s with
  | EmptyString => true
  | String c s' =>
      negb (PyStr.isspace c) && Ascii.eqb (PyStr.lower_char c) c && plain s'
  end.

(** ** Further sample data *)

Module Case.

Definition both : DataFrame :=
  [("SLA_Breached", Sample.flags); ("IsInsurable", Sample.flags)].
Definition lowercase : DataFrame :=
  [("id", Sample.amounts); ("isfraud", Sample.flags)].
Definition insured : DataFrame :=
  [("IsInsurable", Sample.flags); ("Amount", Sample.amounts)].
Definition shuffled : Series :=
  mkSeries np_object
    [VStr ""; NA; VStr "TRUE "; VStr " No"; NA; VStr "yes"; VStr " No"].
Definition read_both (p : string) : result DataFrame := Ok both.
Definition demo : string := "/repo/src/data/modeldata_demo.csv".

End Case.

(** ** Binary detection *)

Lemma py_eqb_key (u v : cell) : py_eqb u v = true ↔ value_key u = value_key v.
Proof.
  destruct u as [|a|a|a], v as [|b|b|b]; simpl;
    rewrite ?Z.eqb_eq, ?String.eqb_eq;
    try (split; congruence).
  destruct a, b; simpl; split; congruence.
Qed.

Lemma seen_key (x : cell) (seen : list cell) :
  existsb (py_eqb x) seen = true ↔ value_key x ∈ value_set seen.
Proof.
  unfold value_set. rewrite existsb_exists, elem_of_list_to_set, list_elem_of_fmap.
  split.
  - intros (y & Hy & Heq). exists y. split.
    + by apply py_eqb_key.
    + by apply list_elem_of_In.
  - intros (y & Heq & Hy). exists y. split.
    + by apply list_elem_of_In.
    + apply py_eqb_key. done.
Qed.

Lemma value_set_cons (x : cell) (l : list cell) :
  value_set (x :: l) = {[value_key x]} ∪ value_set l.
Proof. reflexivity. Qed.

Lemma value_set_nil : value_set [] = ∅.
Proof. reflexivity. Qed.

Lemma unique_from_length (l seen : list cell) :
  length (unique_from seen l) = size (value_set l ∖ value_set seen).
Proof.
  revert seen. induction l as [|x l IH]; intros seen; cbn [unique_from].
  - rewrite value_set_nil.
    replace (∅ ∖ value_set seen) with (∅ : gset (option (Z + string))) by set_solver.
    by rewrite size_empty.
  - destruct (existsb (py_eqb x) seen) eqn:Hseen.
    + apply seen_key in Hseen. rewrite IH, value_set_cons. f_equal. set_solver.
    + assert (value_key x ∉ value_set seen) as Hnot.
      { intros Hin%seen_key. congruence. }
      cbn [length]. rewrite IH, !value_set_cons.
      replace (({[value_key x]} ∪ value_set l) ∖ value_set seen)
        with ({[value_key x]} ∪ value_set l ∖ ({[value_key x]} ∪ value_set seen)).
      * symmetry. rewrite size_union by set_solver. by rewrite size_singleton.
      * apply set_eq. intros k.
        destruct (decide (k = value_key x)) as [->|]; set_solver.
Qed.

Lemma unique_length (l : list cell) : length (unique l) = size (value_set l).
Proof.
  unfold unique. rewrite unique_from_length, value_set_nil. f_equal. set_solver.
Qed.

Lemma unique_nil (l : list cell) : unique l = [] ↔ l = [].
Proof. destruct l; unfold unique; simpl; split; congruence. Qed.

Lemma unique_from_In (l seen : list cell) (v : cell) :
  In v (unique_from seen l) → In v l.
Proof.
  revert seen. induction l as [|x l IH]; intros seen; simpl; [done|].
  destruct (existsb (py_eqb x) seen).
  - intros H. right. by apply (IH seen).
  - intros [->|H]; [by left|]. right. by apply (IH (x :: seen)).
Qed.

Lemma unique_from_covers (l seen : list cell) (v : cell) :
  In v l →
  existsb (py_eqb v) seen = true
  ∨ ∃ u, In u (unique_from seen l) ∧ value_key u = value_key v.
Proof.
  revert seen. induction l as [|x l IH]; intros seen; simpl; [done|].
  destruct (existsb (py_eqb x) seen) eqn:Hseen; intros [->|Hin].
  - by left.
  - by apply IH.
  - right. exists v. split; [by left | done].
  - destruct (IH (x :: seen) Hin) as [Hs | (u & Hu & Hk)].
    + simpl in Hs. apply orb_true_iff in Hs as [Hx | Hs]; [|by left].
      right. exists x. split; [by left|]. symmetry. by apply py_eqb_key.
    + right. exists u. split; [by right | done].
Qed.

Lemma unique_covers (l : list cell) (v : cell) :
  In v l → ∃ u, In u (unique l) ∧ value_key u = value_key v.
Proof.
  intros Hin. destruct (unique_from_covers l [] v Hin) as [Hs | H]; [done | exact H].
Qed.

Lemma passes_key (u v : cell) : value_key u = value_key v → passes u = passes v.
Proof.
  destruct u as [|a|a|a], v as [|b|b|b]; simpl; intros H; try done;
    injection H as H; subst; try done.
  - by destruct a, b.
  - by destruct a.
  - by destruct b.
Qed.

Lemma passes_spec (v : cell) :
  passes v = true ↔ (blank v = false → normalised v ∈ binary_words).
Proof.
  unfold passes. destruct (blank v); simpl.
  - split; [done | intros _; done].
  - rewrite bool_decide_eq_true. split; [by intros H _ | by intros H; apply H].
Qed.

Lemma lowered_subset (U : list cell) :
  (list_to_set
     (map (fun v => PyStr.lower (PyStr.strip (py_str v)))
        (List.filter
           (fun v => negb (String.eqb (PyStr.strip (py_str v)) "")) U))
     : gset string) ⊆ binary_words
  ↔ ∀ v, In v U → passes v = true.
Proof.
  rewrite elem_of_subseteq. split.
  - intros H v Hv. apply passes_spec. intros Hb. apply H.
    apply elem_of_list_to_set, list_elem_of_In, in_map_iff.
    exists v. split; [done|]. apply filter_In. split; [done|].
    unfold blank in Hb. by rewrite Hb.
  - intros H w Hw.
    apply elem_of_list_to_set, list_elem_of_In, in_map_iff in Hw
      as (v & <- & Hv).
    apply filter_In in Hv as [Hv Hb]. apply negb_true_iff in Hb.
    specialize (H v Hv). by apply passes_spec in H.
Qed.

Lemma yes_no_unique (l : list cell) :
  (∀ v, In v (unique l) → passes v = true) ↔ yes_no_values l.
Proof.
  unfold yes_no_values. split.
  - intros H v Hv. apply passes_spec.
    destruct (unique_covers l v Hv) as (u & Hu & Hk).
    rewrite <- (passes_key u v Hk). by apply H.
  - intros H v Hv. apply passes_spec. apply H. by apply (unique_from_In l []).
Qed.

Lemma is_binary_values (D : list cell) :
  (let values := unique D in
   if length values =? 0 then false
   else if length values <=? 2 then true
   else
     let lowered : gset string :=
       list_to_set
         (map (fun v => PyStr.lower (PyStr.strip (py_str v)))
            (List.filter
               (fun v => negb (String.eqb (PyStr.strip (py_str v)) ""))
               values)) in
     bool_decide (lowered ⊆ binary_words)) = true
  ↔ D ≠ [] ∧ (few_values D ∨ yes_no_values D).
Proof.
  cbv zeta. unfold few_values. rewrite <- (unique_length D).
  destruct (length (unique D) =? 0) eqn:Hzero.
  - rewrite Nat.eqb_eq, length_zero_iff_nil, unique_nil in Hzero.
    split; [done | intros [HD _]; by destruct HD].
  - assert (D ≠ []) as HD.
    { intros HD. apply unique_nil in HD. rewrite HD in Hzero. done. }
    destruct (length (unique D) <=? 2) eqn:Hle.
    + apply Nat.leb_le in Hle. split; [by auto | done].
    + apply Nat.leb_gt in Hle.
      rewrite bool_decide_eq_true, lowered_subset, yes_no_unique.
      split; [by auto | intros [_ [Hfew | H]]; [lia | done]].
Qed.

(** C2, amended: a column is binary exactly when its type is natively
    boolean, or it has a non-missing value and either at most two
    distinct non-missing values or only non-missing values that are
    blank or, stripped and lower-cased, one of yes, no, true, false, 0,
    1. A natively boolean column is binary even with no value at all. *)
Theorem is_binary_described (s : Series) :
  _is_binary s = true ↔ binary_described s.
Proof.
  unfold _is_binary, binary_described.
  destruct (dtype s); cbn [dtype_eqb].
  - split; [by left | done].
  - rewrite is_binary_values. split; [by right | by intros [|]].
  - rewrite is_binary_values. split; [by right | by intros [|]].
Qed.

(** C2, as stated, fails on a natively boolean column without rows: it
    has no non-missing value, yet it is binary. *)
Lemma is_binary_claimed_fails :
  dropna (values Sample.no_rows) = []
  ∧ _is_binary Sample.no_rows = true
  ∧ ¬ binary_claimed Sample.no_rows.
Proof.
  split; [reflexivity|]. split; [reflexivity|]. intros [Hne _]. by apply Hne.
Qed.

(** ** Target selection *)

Section Target.

Variable safe_col : string -> string.

Lemma has_column_In (df : DataFrame) (c : string) :
  has_column df c = true ↔ In c (columns df).
Proof.
  unfold has_column. rewrite existsb_exists. split.
  - intros (x & Hx & Heq). apply String.eqb_eq in Heq. by subst.
  - intros H. exists c. split; [done | apply String.eqb_refl].
Qed.

Lemma lower_char_i (c : ascii) :
  Ascii.eqb (PyStr.lower_char c) "i" = Ascii.eqb c "I" || Ascii.eqb c "i".
Proof. destruct c as [[] [] [] [] [] [] [] []]; reflexivity. Qed.

Lemma starts_with_I_lower (col : string) :
  PyStr.startswith (PyStr.lower col) "i" = starts_with_I col.
Proof.
  destruct col as [|c rest]; [reflexivity|].
  unfold PyStr.startswith. cbn [PyStr.lower String.prefix starts_with_I].
  rewrite <- lower_char_i.
  destruct (ascii_dec "i" (PyStr.lower_char c)) as [<-|Hne].
  - by destruct (PyStr.lower rest).
  - symmetry. apply Ascii.eqb_neq. congruence.
Qed.

Lemma first_filtered {A} (p : A -> bool) (l : list A) :
  match List.filter p l with x :: _ => Some x | [] => None end = List.find p l.
Proof.
  induction l as [|a l IH]; simpl; [done|]. by destruct (p a).
Qed.

Lemma filter_labels (p : string -> bool) (l : DataFrame) :
  List.filter p (map fst l) = map fst (List.filter (fun kv => p (fst kv)) l).
Proof.
  induction l as [|[k v] l IH]; simpl; [done|].
  destruct (p k); simpl; by rewrite IH.
Qed.

Lemma filter_twice {A} (p q : A -> bool) (l : list A) :
  List.filter p (List.filter q l) = List.filter (fun a => q a && p a) l.
Proof.
  induction l as [|a l IH]; simpl; [done|].
  destruct (q a); simpl; [destruct (p a)|]; by rewrite IH.
Qed.

(** *** Looking a column up by its label *)

Lemma getitem_absent (df : DataFrame) (c : string) :
  ¬ In c (columns df) →
  List.filter (fun kv => String.eqb (fst kv) c) df = [].
Proof.
  induction df as [|[k v] df IH]; simpl; [done|]. intros H.
  destruct (String.eqb_spec k c) as [->|_].
  - destruct H. by left.
  - apply IH. intros Hin. apply H. by right.
Qed.

Lemma getitem_NoDup (df : DataFrame) (c : string) (s : Series) :
  NoDup (columns df) → In (c, s) df → getitem df c = Some (ItemSeries s).
Proof.
  unfold getitem. induction df as [|[k v] df IH]; simpl; [done|].
  intros Hnd [Heq | Hin].
  - injection Heq as -> ->. rewrite String.eqb_refl.
    apply NoDup_cons_1_1 in Hnd. rewrite list_elem_of_In in Hnd.
    by rewrite (getitem_absent df c Hnd).
  - pose proof (NoDup_cons_1_1 _ _ Hnd) as Hk. rewrite list_elem_of_In in Hk.
    destruct (String.eqb_spec k c) as [->|_].
    + destruct Hk. apply in_map_iff. by exists (c, s).
    + apply IH; [by apply NoDup_cons_1_2 in Hnd | done].
Qed.

Lemma binary_columns_NoDup (df l : DataFrame) :
  NoDup (columns df) → incl l df →
  binary_columns df (map fst l)
  = Ok (map fst (List.filter (fun kv => _is_binary (snd kv)) l)).
Proof.
  intros Hnd. induction l as [|[k v] l IH]; intros Hincl; simpl; [done|].
  unfold _is_binary_at. rewrite (getitem_NoDup df k v Hnd) by (apply Hincl; by left).
  simpl. rewrite IH by (intros x Hx; apply Hincl; by right). simpl.
  by destruct (_is_binary v).
Qed.

Lemma binary_columns_incl (df : DataFrame) (cols l : list string) :
  binary_columns df cols = Ok l → incl l cols.
Proof.
  revert l. induction cols as [|c cols IH]; simpl; intros l.
  - intros [= <-]. by intros x Hx.
  - destruct (_is_binary_at df c) as [b|e]; simpl; [|done].
    destruct (binary_columns df cols) as [tl|e]; simpl; [|done].
    intros [= <-]. specialize (IH tl eq_refl).
    destruct b.
    + intros x [->|Hx]; [by left | right; by apply IH].
    + intros x Hx. right. by apply IH.
Qed.

Lemma binary_columns_error (df : DataFrame) (cols : list string) (e : exn) :
  binary_columns df cols = Raise e → e ≠ ValueError empty_table_message.
Proof.
  induction cols as [|c cols IH]; simpl; [done|].
  unfold _is_binary_at at 1.
  destruct (getitem df c) as [[s|sub]|]; simpl.
  - destruct (binary_columns df cols) as [tl|e']; simpl; [done|].
    intros [= <-]. by apply IH.
  - destruct (String.eqb c "dtype"); intros [= <-]; done.
  - intros [= <-]. done.
Qed.

(** *** The explicit names *)

Lemma resolve_truthy (df : DataFrame) (name : option string) :
  (if truthy (_resolve safe_col df name) then _resolve safe_col df name else None)
  = resolve_described safe_col df name.
Proof.
  destruct name as [[|c n]|]; [done| |done].
  unfold resolve_described, resolve_claimed, _resolve.
  cbn [PyStr.falsy String.eqb List.find].
  destruct (has_column df (PyStr.strip (String c n))).
  - by destruct (PyStr.strip (String c n)).
  - destruct (has_column df (safe_col (PyStr.strip (String c n)))); [|done].
    by destruct (safe_col (PyStr.strip (String c n))).
Qed.

Lemma guess_explicit (df : DataFrame) (preferred TARGET : option string) :
  columns df ≠ [] →
  guess_target_column safe_col df preferred TARGET
  = match first_success
            [ resolve_described safe_col df preferred;
              resolve_described safe_col df TARGET;
              resolve_described safe_col df (Some "IsInsurable") ] with
    | Some name => Ok name
    | None => fallback df (columns df)
    end.
Proof.
  intros Hne. unfold guess_target_column.
  destruct (columns df) as [|c0 cs] eqn:Hcols; [done|].
  rewrite <- !resolve_truthy.
  generalize (_resolve safe_col df preferred) as a.
  generalize (_resolve safe_col df TARGET) as b.
  generalize (_resolve safe_col df (Some "IsInsurable")) as c.
  intros c b a. unfold py_or, first_success.
  destruct a as [[|? ?]|], b as [[|? ?]|], c as [[|? ?]|]; reflexivity.
Qed.

(** *** The fallback on binary columns *)

Lemma last_some (l : list string) (d : string) :
  l ≠ [] → List.last (Some <$> l) None = Some (List.last l d).
Proof.
  induction l as [|x l IH]; [done|]. intros _.
  destruct l as [|y l]; [done|].
  change (List.last (Some <$> y :: l) None = Some (List.last (y :: l) d)).
  by apply IH.
Qed.

Lemma fallback_described (df : DataFrame) :
  columns df ≠ [] → NoDup (columns df) →
  ∃ c, first_success
         [ first_binary starts_with_I df;
           first_binary (fun _ => true) df;
           last_column df ] = Some c
       ∧ fallback df (columns df) = Ok c.
Proof.
  intros Hne Hnd. unfold fallback.
  assert (incl df df) as Hincl by (by intros x Hx).
  pose proof (binary_columns_NoDup df df Hnd Hincl) as Hb.
  change (map fst df) with (columns df) in Hb at 1. rewrite Hb.
  cbn [bind result_monad].
  rewrite (List.filter_ext _ _ starts_with_I_lower).
  rewrite filter_labels, filter_twice.
  unfold first_success, fold_right, first_binary.
  rewrite <- !first_filtered.
  destruct (List.filter (fun a => _is_binary (snd a) && starts_with_I (fst a)) df)
    as [|[k v] P]; cbn [map fmap option_fmap option_map fst].
  - rewrite (List.filter_ext (fun kv => _is_binary (snd kv) && true)
               (fun kv => _is_binary (snd kv))) by (intros kv; apply andb_true_r).
    destruct (List.filter (fun kv => _is_binary (snd kv)) df)
      as [|[k v] B]; cbn [map fmap option_fmap option_map fst].
    + exists (List.last (columns df) ""). split; [|done].
      unfold last_column. by rewrite (last_some (columns df) "" Hne).
    + by exists k.
  - by exists k.
Qed.

Lemma resolve_In (df : DataFrame) (name : option string) (c : string) :
  _resolve safe_col df name = Some c → In c (columns df).
Proof.
  destruct name as [n|]; [|done]. unfold _resolve.
  destruct (PyStr.falsy n); [done|]. intros H.
  apply find_some in H as [_ H]. by apply has_column_In.
Qed.

Lemma resolve_described_In (df : DataFrame) (name : option string) (c : string) :
  resolve_described safe_col df name = Some c → In c (columns df).
Proof.
  rewrite <- resolve_truthy.
  destruct (truthy (_resolve safe_col df name)); [apply resolve_In | done].
Qed.

Lemma fallback_In (df : DataFrame) (cands : list string) (c : string) :
  cands ≠ [] → fallback df cands = Ok c → In c cands.
Proof.
  intros Hne. unfold fallback.
  destruct (binary_columns df cands) as [bs|e] eqn:Hb; cbn [bind result_monad]; [|done].
  apply binary_columns_incl in Hb.
  destruct (List.filter _ bs) as [|p ps] eqn:Hp.
  - destruct bs as [|b bs'].
    + intros [= <-]. destruct cands as [|c0 cs]; [done|].
      apply (exists_last (l:=c0 :: cs)) in Hne as (l' & a & Heq).
      rewrite Heq, last_last. apply in_or_app. right. by left.
    + intros [= <-]. apply Hb. by left.
  - intros [= <-]. apply Hb.
    assert (In p (List.filter (fun col => PyStr.startswith (PyStr.lower col) "i") bs)) as Hin
      by (rewrite Hp; by left).
    by apply filter_In in Hin as [Hin _].
Qed.

Lemma fallback_error (df : DataFrame) (cands : list string) (e : exn) :
  fallback df cands = Raise e → e ≠ ValueError empty_table_message.
Proof.
  unfold fallback.
  destruct (binary_columns df cands) as [bs|e'] eqn:Hb; cbn [bind result_monad].
  - destruct (List.filter _ bs); [destruct bs|]; done.
  - intros [= <-]. by apply (binary_columns_error df cands).
Qed.

(** C1, amended: on a table with at least one column and pairwise
    distinct labels the result is that of the first step that succeeds
    among: resolving [preferred], resolving [TARGET], resolving
    [IsInsurable], the first binary column whose name starts with I or i,
    the first binary column, the last column. Resolving trims the name
    and takes it if it is a column, else its sanitized form if that is a
    column; an absent or empty name is not resolved, and a match that is
    the empty string is no success. *)
Theorem guess_target_priority (df : DataFrame) (preferred TARGET : option string) :
  columns df ≠ [] → NoDup (columns df) →
  ∃ c, selection df (resolve_described safe_col df) preferred TARGET = Some c
       ∧ guess_target_column safe_col df preferred TARGET = Ok c.
Proof.
  intros Hne Hnd. rewrite (guess_explicit df preferred TARGET Hne).
  destruct (fallback_described df Hne Hnd) as (c & Hsel & Hfb).
  unfold selection. unfold first_success in *. cbn [fold_right] in *.
  destruct (resolve_described safe_col df preferred) as [x|]; [by exists x|].
  destruct (resolve_described safe_col df TARGET) as [x|]; [by exists x|].
  destruct (resolve_described safe_col df (Some "IsInsurable")) as [x|];
    [by exists x|].
  by exists c.
Qed.

(** C3: a name that [guess_target_column] returns is a column of the
    table. *)
Theorem guess_target_is_column
    (df : DataFrame) (preferred TARGET : option string) (c : string) :
  guess_target_column safe_col df preferred TARGET = Ok c → In c (columns df).
Proof.
  destruct (columns df) as [|c0 cs] eqn:Hcols.
  - unfold guess_target_column. by rewrite Hcols.
  - assert (columns df ≠ []) as Hne by (by rewrite Hcols).
    rewrite (guess_explicit df preferred TARGET Hne), <- Hcols.
    unfold first_success. cbn [fold_right].
    destruct (resolve_described safe_col df preferred) as [x|] eqn:H1.
    { intros [= <-]. by apply resolve_described_In in H1. }
    destruct (resolve_described safe_col df TARGET) as [x|] eqn:H2.
    { intros [= <-]. by apply resolve_described_In in H2. }
    destruct (resolve_described safe_col df (Some "IsInsurable")) as [x|] eqn:H3.
    { intros [= <-]. by apply resolve_described_In in H3. }
    by apply fallback_In.
Qed.

(** C4, amended: [guess_target_column] raises the empty-table error
    exactly when the table has no column, and on every table with at
    least one column and pairwise distinct labels it returns a name,
    whatever [preferred] and [TARGET] are. *)
Theorem guess_target_failure (df : DataFrame) (preferred TARGET : option string) :
  (guess_target_column safe_col df preferred TARGET
     = Raise (ValueError empty_table_message)
   ↔ columns df = [])
  ∧ (columns df ≠ [] → NoDup (columns df) →
     ∃ c, guess_target_column safe_col df preferred TARGET = Ok c).
Proof.
  split.
  - split.
    + intros Hraise. destruct (columns df) as [|c0 cs] eqn:Hcols; [done|].
      assert (columns df ≠ []) as Hne by (by rewrite Hcols).
      rewrite (guess_explicit df preferred TARGET Hne) in Hraise.
      destruct (first_success _); [done|].
      by apply fallback_error in Hraise.
    + intros Hnil. unfold guess_target_column. by rewrite Hnil.
  - intros Hne Hnd. rewrite (guess_explicit df preferred TARGET Hne).
    destruct (first_success _) as [x|]; [by exists x|].
    destruct (fallback_described df Hne Hnd) as (c & _ & H). by exists c.
Qed.

(** C10: a resolution can only yield the empty string when the table
    has a column of that name and the trimmed name or its sanitized form
    is empty; such a match is discarded like a failed resolution, the
    next name being tried, and when none of [preferred], [TARGET] and
    [IsInsurable] resolves to a non-empty name the result is that of the
    binary-column heuristics. *)
Theorem empty_match_discarded (df : DataFrame) (preferred TARGET : option string) :
  columns df ≠ [] →
  (∀ name, _resolve safe_col df name = Some "" →
     In "" (columns df)
     ∧ ∃ n, name = Some n
            ∧ (PyStr.strip n = "" ∨ safe_col (PyStr.strip n) = ""))
  ∧ (_resolve safe_col df preferred = Some "" →
     guess_target_column safe_col df preferred TARGET
     = guess_target_column safe_col df None TARGET)
  ∧ (_resolve safe_col df TARGET = Some "" →
     guess_target_column safe_col df preferred TARGET
     = guess_target_column safe_col df preferred None)
  ∧ (no_match (_resolve safe_col df preferred) →
     no_match (_resolve safe_col df TARGET) →
     no_match (_resolve safe_col df (Some "IsInsurable")) →
     guess_target_column safe_col df preferred TARGET
     = fallback df (columns df)).
Proof.
  intros Hne. split; [|split; [|split]].
  - intros name H. split; [by apply resolve_In in H|].
    destruct name as [n|]; [|done]. exists n. split; [done|].
    unfold _resolve in H. destruct (PyStr.falsy n); [done|].
    cbn [List.find] in H.
    destruct (has_column df (PyStr.strip n)); [left; congruence|].
    destruct (has_column df (safe_col (PyStr.strip n))); [right; congruence | done].
  - intros H. rewrite !guess_explicit, <- !resolve_truthy by done. by rewrite H.
  - intros H. rewrite !guess_explicit, <- !resolve_truthy by done. by rewrite H.
  - intros H1 H2 H3. rewrite guess_explicit, <- !resolve_truthy by done.
    by destruct H1 as [-> | ->], H2 as [-> | ->], H3 as [-> | ->].
Qed.
End Target.

(** ** Finding and loading the dataset *)

Section Files.

Variable REPO_ROOT : string.
Variable read_csv : string -> result DataFrame.

Lemma search_cons (c : string) (rest : list string) (fs : FileSystem) :
  search (c :: rest) fs
  = match answer fs c with
    | Ok true => (Ok c, [c])
    | Ok false => let '(r, log) := search rest fs in (r, c :: log)
    | Raise e => (Raise e, [c])
    end.
Proof.
  cbn [search bind io_monad path_exists]. unfold answer.
  destruct (exists_answer (fs c)) as [[|]|e]; cbn [ret io_monad]; [done| |done].
  by destruct (search rest fs).
Qed.

Lemma search_run (cands : list string) (fs : FileSystem) :
  search cands fs = (first_existing fs cands, checked fs cands).
Proof.
  induction cands as [|c cands IH]; [done|].
  rewrite search_cons. cbn [first_existing checked].
  destruct (answer fs c) as [[|]|e]; [done| |done]. by rewrite IH.
Qed.

Lemma answer_found (fs : FileSystem) (p : string) :
  answer fs p = Ok true ↔ fs p = Found.
Proof.
  unfold answer, exists_answer. destruct (fs p) as [|n|]; [done| |done].
  by destruct (_ignore_error n).
Qed.

Lemma first_existing_hit
    (fs : FileSystem) (pre post : list string) (c : string) :
  (∀ q, In q pre → answer fs q = Ok false) → fs c = Found →
  first_existing fs (pre ++ c :: post) = Ok c
  ∧ List.find (fun q => is_found (fs q)) (pre ++ c :: post) = Some c.
Proof.
  intros Hpre Hc. induction pre as [|x pre IH]; cbn [app first_existing List.find].
  - apply answer_found in Hc as Ha. by rewrite Ha, Hc.
  - pose proof (Hpre x (or_introl eq_refl)) as Hx. rewrite Hx.
    assert (is_found (fs x) = false) as ->.
    { destruct (fs x) eqn:Hfx; [|done|done].
      apply answer_found in Hfx. congruence. }
    apply IH. intros q Hq. apply Hpre. by right.
Qed.

Lemma first_existing_none (fs : FileSystem) (cands : list string) :
  (∀ c, In c cands → answer fs c = Ok false) →
  first_existing fs cands = Raise (FileNotFoundError not_found_message)
  ∧ checked fs cands = cands.
Proof.
  induction cands as [|x cands IH]; intros H; [done|].
  cbn [first_existing checked]. rewrite (H x) by (by left).
  destruct IH as [-> ->]; [|done]. intros c Hc. apply H. by right.
Qed.

Lemma checked_incl (fs : FileSystem) (cands : list string) :
  incl (checked fs cands) cands.
Proof.
  induction cands as [|c cands IH]; [by intros y Hy|]. cbn [checked].
  destruct (answer fs c) as [[|]|e].
  - intros y [<-|[]]. by left.
  - intros y [<-|Hy]; [by left | right; by apply IH].
  - intros y [<-|[]]. by left.
Qed.

Lemma append_nonempty (a b : string) : b ≠ "" → String.append a b ≠ "".
Proof. destruct a; simpl; [done | discriminate]. Qed.

Lemma candidates_nonempty : ¬ In "" (candidates REPO_ROOT).
Proof.
  unfold candidates. intros (rel & Heq & _)%in_map_iff. revert Heq.
  unfold joinpath. destruct (String.eqb REPO_ROOT "/"); [done|].
  apply append_nonempty. done.
Qed.

Lemma find_csv_run (CSV_PATH : option string) (fs : FileSystem) :
  find_csv REPO_ROOT CSV_PATH fs
  = match CSV_PATH with
    | Some p =>
        if String.eqb p "" then search (candidates REPO_ROOT) fs
        else
          match answer fs p with
          | Ok true => (Ok p, [p])
          | Ok false =>
              (first_existing fs (candidates REPO_ROOT),
               p :: checked fs (candidates REPO_ROOT))
          | Raise e => (Raise e, [p])
          end
    | None => search (candidates REPO_ROOT) fs
    end.
Proof.
  destruct CSV_PATH as [p|]; [|done].
  unfold find_csv, PyStr.falsy, answer. cbn [bind io_monad].
  destruct (String.eqb p ""); cbn [ret io_monad path_exists].
  - by destruct (search (candidates REPO_ROOT) fs).
  - destruct (exists_answer (fs p)) as [[|]|e]; [done| |done]. by rewrite search_run.
Qed.

(** C5, amended: when [CSV_PATH] is set to a non-empty string that
    names an existing path, [find_csv] returns exactly that string,
    after this one check, whichever of the candidates exist. *)
Theorem find_csv_override (p : string) (fs : FileSystem) :
  p ≠ "" → fs p = Found →
  find_csv REPO_ROOT (Some p) fs = (Ok p, [p]).
Proof.
  intros Hne Hp. rewrite find_csv_run.
  destruct (String.eqb_spec p ""); [done|].
  apply answer_found in Hp. by rewrite Hp.
Qed.

(** C6, amended: when the check of [CSV_PATH] answers that the path
    does not exist, some candidate exists, and the checks of the
    candidates before the first existing one answer that they do not
    exist, [find_csv] does not raise and returns that first existing
    candidate. *)
Theorem find_csv_ignores_missing_override
    (p : string) (fs : FileSystem) (pre post : list string) (c : string) :
  answer fs p = Ok false →
  candidates REPO_ROOT = pre ++ c :: post →
  (∀ q, In q pre → answer fs q = Ok false) →
  fs c = Found →
  List.find (fun q => is_found (fs q)) (candidates REPO_ROOT) = Some c
  ∧ outcome (find_csv REPO_ROOT (Some p)) fs = Ok c.
Proof.
  intros Hp Hcands Hpre Hc.
  destruct (first_existing_hit fs pre post c Hpre Hc) as [Hfirst Hfind].
  rewrite <- Hcands in Hfirst, Hfind. split; [done|].
  unfold outcome. rewrite find_csv_run, search_run, Hp.
  by destruct (String.eqb p "").
Qed.

(** C7, amended: when [CSV_PATH] is unset, or its check answers that
    the path does not exist, and the check of every candidate answers
    that it does not exist, [find_csv] raises [FileNotFoundError] with a
    message that names [CSV_PATH] and the directory [src/data/]. *)
Theorem find_csv_not_found (CSV_PATH : option string) (fs : FileSystem) :
  match CSV_PATH with Some p => answer fs p = Ok false | None => True end →
  (∀ c, In c (candidates REPO_ROOT) → answer fs c = Ok false) →
  outcome (find_csv REPO_ROOT CSV_PATH) fs
    = Raise (FileNotFoundError not_found_message)
  ∧ occurs_in "CSV_PATH" not_found_message
  ∧ occurs_in "src/data/" not_found_message.
Proof.
  intros Henv Hnone. split; [|split].
  - destruct (first_existing_none fs (candidates REPO_ROOT) Hnone) as [Hfirst _].
    unfold outcome. rewrite find_csv_run, search_run.
    destruct CSV_PATH as [p|]; [|done]. rewrite Henv.
    by destruct (String.eqb p "").
  - by exists "Could not locate dataset. Set ",
      " or place modeldata.csv under src/data/.".
  - by exists "Could not locate dataset. Set CSV_PATH or place modeldata.csv under ",
      ".".
Qed.

(** C9: with [CSV_PATH] set to the empty string [find_csv] does what
    it does with [CSV_PATH] unset, result and checks alike: it never
    asks the file system about the empty path, its first check is that
    of the first candidate, and it goes through the candidates in
    order until a check does not answer false, which decides the
    result. *)
Theorem find_csv_empty_override (fs : FileSystem) :
  find_csv REPO_ROOT (Some "") fs = find_csv REPO_ROOT None fs
  ∧ ¬ In "" (probes (find_csv REPO_ROOT (Some "")) fs)
  ∧ find_csv REPO_ROOT (Some "") fs
    = (first_existing fs (candidates REPO_ROOT),
       checked fs (candidates REPO_ROOT))
  ∧ ∃ rest, probes (find_csv REPO_ROOT (Some "")) fs
            = joinpath REPO_ROOT "src/data/modeldata.csv" :: rest.
Proof.
  assert (find_csv REPO_ROOT (Some "") fs
          = (first_existing fs (candidates REPO_ROOT),
             checked fs (candidates REPO_ROOT))) as Hrun.
  { rewrite find_csv_run. cbn [String.eqb]. apply search_run. }
  split; [|split; [|split]].
  - by rewrite Hrun, find_csv_run, search_run.
  - unfold probes. rewrite Hrun. cbn [snd]. intros Hin.
    apply candidates_nonempty. by apply (checked_incl fs).
  - exact Hrun.
  - unfold probes. rewrite Hrun. cbn [snd candidates map checked].
    destruct (answer fs (joinpath REPO_ROOT "src/data/modeldata.csv"))
      as [[|]|e]; eauto.
Qed.

(** *** The rename of the legacy column *)

Lemma rename_values (old new : string) (df : DataFrame) :
  map snd (rename_column old new df) = map snd df.
Proof.
  unfold rename_column. rewrite map_map. apply map_ext.
  intros [k v]. cbn [fst snd]. by destruct (String.eqb k old).
Qed.

Lemma rename_labels (old new : string) (df : DataFrame) :
  columns (rename_column old new df)
  = map (fun c => if String.eqb c old then new else c) (columns df).
Proof.
  unfold columns, rename_column. rewrite !map_map. apply map_ext.
  intros [k v]. cbn [fst snd]. by destruct (String.eqb k old).
Qed.

Lemma load_dataset_outcome
    (CSV_PATH : option string) (fs : FileSystem) (path : string)
    (df : DataFrame) :
  outcome (find_csv REPO_ROOT CSV_PATH) fs = Ok path →
  read_csv path = Ok df →
  outcome (load_dataset REPO_ROOT read_csv CSV_PATH) fs
  = Ok (if negb (has_column df "IsInsurable") && has_column df "SLA_Breached"
        then rename_column "SLA_Breached" "IsInsurable" df else df).
Proof.
  unfold outcome, load_dataset. cbn [bind io_monad].
  destruct (find_csv REPO_ROOT CSV_PATH fs) as [r log]. cbn [fst].
  intros -> ->.
  by destruct (negb (has_column df "IsInsurable") && has_column df "SLA_Breached").
Qed.

(** C8: [load_dataset] renames [SLA_Breached] to [IsInsurable] exactly
    when the parsed table has a column [SLA_Breached] and none named
    [IsInsurable]; then every column keeps its values and its position,
    and every label but [SLA_Breached] is kept; otherwise the parsed
    table is returned as it is. *)
Theorem load_dataset_rename
    (CSV_PATH : option string) (fs : FileSystem) (path : string)
    (df : DataFrame) :
  outcome (find_csv REPO_ROOT CSV_PATH) fs = Ok path →
  read_csv path = Ok df →
  ∃ df', outcome (load_dataset REPO_ROOT read_csv CSV_PATH) fs = Ok df'
    ∧ (In "SLA_Breached" (columns df) ∧ ¬ In "IsInsurable" (columns df) →
       map snd df' = map snd df
       ∧ columns df' = map renamed_label (columns df)
       ∧ ¬ In "SLA_Breached" (columns df')
       ∧ In "IsInsurable" (columns df'))
    ∧ (¬ (In "SLA_Breached" (columns df) ∧ ¬ In "IsInsurable" (columns df)) →
       df' = df).
Proof.
  intros Hpath Hread. eexists. split; [by apply (load_dataset_outcome _ _ path)|].
  destruct (has_column df "IsInsurable") eqn:Hins;
    destruct (has_column df "SLA_Breached") eqn:Hsla; cbn [negb andb].
  - apply has_column_In in Hins. split; [by intros [_ H] | done].
  - apply has_column_In in Hins. split; [by intros [_ H] | done].
  - apply has_column_In in Hsla.
    assert (¬ In "IsInsurable" (columns df)) as Hno.
    { intros H%has_column_In. congruence. }
    split; [|by intros H; destruct H].
    intros _. rewrite rename_values, rename_labels.
    split; [done|]. split; [done|]. split.
    + intros (c & Heq & _)%in_map_iff. by destruct (String.eqb_spec c "SLA_Breached").
    + apply in_map_iff. by exists "SLA_Breached".
  - assert (¬ In "SLA_Breached" (columns df)) as Hno.
    { intros H%has_column_In. congruence. }
    split; [by intros [H _] | done].
Qed.
End Files.

(** ** The theorems at sample inputs *)

Lemma guess_target_priority_witness :
  columns Sample.fraud ≠ [] ∧ NoDup (columns Sample.fraud)
  ∧ ∃ c, selection Sample.fraud
           (resolve_described Sample.sanitize Sample.fraud) None None = Some c
         ∧ guess_target_column Sample.sanitize Sample.fraud None None = Ok c.
Proof.
  assert (columns Sample.fraud ≠ []) as Hne by done.
  assert (NoDup (columns Sample.fraud)) as Hnd by (by apply (bool_decide_unpack _)).
  split; [exact Hne|]. split; [exact Hnd|].
  exact (guess_target_priority Sample.sanitize Sample.fraud None None Hne Hnd).
Defined.

(** C1, as stated, fails: a name that trims to the empty string matches
    the column of that name, yet the last column is returned; and with a
    label borne by two columns no name is returned at all. *)
Lemma guess_target_claimed_fails :
  ¬ (∃ c, selection Sample.unnamed
            (resolve_claimed Sample.sanitize Sample.unnamed) (Some " ") None
          = Some c
          ∧ guess_target_column Sample.sanitize Sample.unnamed (Some " ") None
            = Ok c)
  ∧ ¬ (∃ c, selection Sample.twice
              (resolve_claimed Sample.sanitize Sample.twice) None None = Some c
            ∧ guess_target_column Sample.sanitize Sample.twice None None = Ok c).
Proof.
  split.
  - intros (c & Hsel & Hres). vm_compute in Hsel, Hres. congruence.
  - intros (c & _ & Hres). vm_compute in Hres. congruence.
Qed.

Lemma guess_target_is_column_witness : In "IsFraud" (columns Sample.fraud).
Proof.
  apply (guess_target_is_column Sample.sanitize Sample.fraud None None).
  reflexivity.
Defined.

Lemma guess_target_failure_witness :
  ∃ c, guess_target_column Sample.sanitize Sample.fraud (Some "Amount ") None = Ok c.
Proof.
  apply (guess_target_failure Sample.sanitize Sample.fraud (Some "Amount ") None).
  - done.
  - by apply (bool_decide_unpack _).
Defined.

(** C4, as stated, fails: a table with two columns of one label has a
    column, and no name is returned for it. *)
Lemma guess_target_total_fails :
  columns Sample.twice ≠ []
  ∧ ¬ (∃ c, guess_target_column Sample.sanitize Sample.twice None None = Ok c).
Proof.
  split; [done|]. intros (c & Hres). vm_compute in Hres. congruence.
Qed.

Lemma empty_match_discarded_witness :
  _resolve Sample.sanitize Sample.unnamed (Some " ") = Some ""
  ∧ guess_target_column Sample.sanitize Sample.unnamed (Some " ") None
    = fallback Sample.unnamed (columns Sample.unnamed).
Proof.
  split; [reflexivity|].
  apply (empty_match_discarded Sample.sanitize Sample.unnamed (Some " ") None).
  - done.
  - by right.
  - by left.
  - by left.
Defined.

Lemma find_csv_override_witness :
  find_csv "/repo" (Some "/tmp/data.csv") Sample.only_override
  = (Ok "/tmp/data.csv", ["/tmp/data.csv"]).
Proof.
  apply (find_csv_override "/repo" "/tmp/data.csv" Sample.only_override).
  - done.
  - reflexivity.
Defined.

(** C5, as stated, fails: the empty string names the working
    directory, which exists, and [find_csv] does not return it. *)
Lemma find_csv_override_claimed_fails :
  Sample.only_cwd "" = Found
  ∧ outcome (find_csv "/repo" (Some "")) Sample.only_cwd ≠ Ok "".
Proof. split; [reflexivity | done]. Qed.

Lemma find_csv_ignores_missing_override_witness :
  List.find (fun q => is_found (Sample.only_demo q)) (candidates "/repo")
  = Some "/repo/src/data/modeldata_demo.csv"
  ∧ outcome (find_csv "/repo" (Some "missing.csv")) Sample.only_demo
    = Ok "/repo/src/data/modeldata_demo.csv".
Proof.
  apply (find_csv_ignores_missing_override "/repo" "missing.csv"
           Sample.only_demo
           ["/repo/src/data/modeldata.csv"]
           ["/repo/Project/src/data/modeldata.csv";
            "/repo/Project/src/data/modeldata_demo.csv";
            "/repo/src/data/datasets/tabular/modeldata.csv";
            "/repo/src/data/datasets/tabular/modeldata_demo.csv"]
           "/repo/src/data/modeldata_demo.csv").
  - reflexivity.
  - reflexivity.
  - intros q [<-|[]]. reflexivity.
  - reflexivity.
Defined.

(** C6, as stated, fails: a name of 300 characters names no existing
    path and a candidate exists, yet the check of the name raises
    [OSError] and [find_csv] with it. *)
Lemma find_csv_missing_override_claimed_fails :
  Sample.name_limit Sample.only_demo Sample.too_long ≠ Found
  ∧ In "/repo/src/data/modeldata_demo.csv" (candidates "/repo")
  ∧ Sample.name_limit Sample.only_demo "/repo/src/data/modeldata_demo.csv" = Found
  ∧ outcome (find_csv "/repo" (Some Sample.too_long))
      (Sample.name_limit Sample.only_demo)
    = Raise (OSError ENAMETOOLONG).
Proof.
  split; [by vm_compute|]. split; [right; by left|].
  split; [by vm_compute | by vm_compute].
Qed.

Lemma find_csv_not_found_witness :
  outcome (find_csv "/repo" (Some "missing.csv")) Sample.nothing
    = Raise (FileNotFoundError not_found_message)
  ∧ occurs_in "CSV_PATH" not_found_message
  ∧ occurs_in "src/data/" not_found_message.
Proof.
  apply (find_csv_not_found "/repo" (Some "missing.csv") Sample.nothing).
  - reflexivity.
  - intros c _. reflexivity.
Defined.

(** C7, as stated, fails: a name of 300 characters names no existing
    path and no candidate exists, yet the error is the [OSError] of the
    check of the name, not [FileNotFoundError]. *)
Lemma find_csv_not_found_claimed_fails :
  Sample.name_limit Sample.nothing Sample.too_long ≠ Found
  ∧ (∀ c, In c (candidates "/repo") → Sample.name_limit Sample.nothing c ≠ Found)
  ∧ outcome (find_csv "/repo" (Some Sample.too_long))
      (Sample.name_limit Sample.nothing)
    = Raise (OSError ENAMETOOLONG)
  ∧ OSError ENAMETOOLONG ≠ FileNotFoundError not_found_message.
Proof.
  split; [by vm_compute|]. split; [|split; [by vm_compute | done]].
  intros c Hc. unfold Sample.name_limit, Sample.nothing.
  by destruct (255 <? String.length c).
Qed.

Lemma load_dataset_rename_witness :
  ∃ df', outcome (load_dataset "/repo" Sample.read_legacy None) Sample.only_demo
         = Ok df'
    ∧ (In "SLA_Breached" (columns Sample.legacy)
       ∧ ¬ In "IsInsurable" (columns Sample.legacy) →
       map snd df' = map snd Sample.legacy
       ∧ columns df' = map renamed_label (columns Sample.legacy)
       ∧ ¬ In "SLA_Breached" (columns df')
       ∧ In "IsInsurable" (columns df'))
    ∧ (¬ (In "SLA_Breached" (columns Sample.legacy)
          ∧ ¬ In "IsInsurable" (columns Sample.legacy)) →
       df' = Sample.legacy).
Proof.
  apply (load_dataset_rename "/repo" Sample.read_legacy None Sample.only_demo
           "/repo/src/data/modeldata_demo.csv" Sample.legacy).
  - reflexivity.
  - reflexivity.
Defined.

(** ** The examples of the specification *)

Example prefers_I_prefixed_binary :
  guess_target_column Sample.sanitize Sample.fraud None None = Ok "IsFraud".
Proof. reflexivity. Qed.

Example prefers_binary_over_last :
  guess_target_column Sample.sanitize
    [("id", Sample.amounts); ("Amount", Sample.amounts); ("Flag", Sample.answers)]
    None None = Ok "Flag".
Proof. reflexivity. Qed.

Example falls_back_to_last :
  guess_target_column Sample.sanitize
    [("id", Sample.amounts); ("Amount", Sample.amounts); ("Notes", Sample.amounts)]
    None None = Ok "Notes".
Proof. reflexivity. Qed.

Example resolves_sanitized_name :
  guess_target_column Sample.sanitize
    [("id", Sample.amounts); ("isfraud", Sample.amounts); ("Amount", Sample.amounts)]
    (Some " IsFraud ") (Some "Amount") = Ok "isfraud".
Proof. reflexivity. Qed.

Example no_columns :
  guess_target_column Sample.sanitize [] (Some "x") None
  = Raise (ValueError empty_table_message).
Proof. reflexivity. Qed.

Example first_candidate_wins :
  find_csv "/repo" None (fun _ => Found)
  = (Ok "/repo/src/data/modeldata.csv", ["/repo/src/data/modeldata.csv"]).
Proof. reflexivity. Qed.

Example both_columns_untouched :
  outcome
    (load_dataset "/repo"
       (fun _ => Ok [("SLA_Breached", Sample.flags); ("IsInsurable", Sample.flags)])
       None) Sample.only_demo
  = Ok [("SLA_Breached", Sample.flags); ("IsInsurable", Sample.flags)].
Proof. reflexivity. Qed.

(** ** Further properties of [find_csv] *)

Section FindMore.

Variable REPO_ROOT : string.

Lemma find_csv_order (CSV_PATH : option string) (fs : FileSystem) :
  find_csv REPO_ROOT CSV_PATH fs
  = (first_existing fs (search_order (candidates REPO_ROOT) CSV_PATH),
     checked fs (search_order (candidates REPO_ROOT) CSV_PATH)).
Proof.
  rewrite find_csv_run, search_run. unfold search_order.
  destruct CSV_PATH as [p|]; [|done].
  destruct (String.eqb p ""); [done|]. cbn [first_existing checked].
  by destruct (answer fs p) as [[|]|e].
Qed.

Lemma answer_raise (fs : FileSystem) (q : string) (e : exn) :
  answer fs q = Raise e →
  ∃ n, fs q = Failed n ∧ _ignore_error n = false ∧ e = OSError n.
Proof.
  unfold answer, exists_answer. destruct (fs q) as [|n|]; [done| |done].
  destruct (_ignore_error n) eqn:Hn; [done|]. intros [= <-]. by exists n.
Qed.

Lemma checked_length (fs : FileSystem) (l : list string) :
  length (checked fs l) ≤ length l.
Proof.
  induction l as [|c l IH]; [done|]. cbn [checked].
  destruct (answer fs c) as [[|]|e]; cbn [length]; lia.
Qed.

Lemma first_existing_ok (fs : FileSystem) (l : list string) (p : string) :
  first_existing fs l = Ok p →
  fs p = Found ∧ In p l
  ∧ ∃ pre, checked fs l = pre ++ [p] ∧ ∀ q, In q pre → answer fs q = Ok false.
Proof.
  induction l as [|x l IH]; [done|]. cbn [first_existing checked].
  destruct (answer fs x) as [[|]|e] eqn:Hx; [| |done].
  - intros [= ->]. split; [by apply answer_found|]. split; [by left|].
    by exists [].
  - intros H. destruct (IH H) as (Hp & Hin & pre & -> & Hpre).
    split; [done|]. split; [by right|]. exists (x :: pre). split; [done|].
    intros q [<-|Hq]; [done | by apply Hpre].
Qed.

Lemma first_existing_raise (fs : FileSystem) (l : list string) (e : exn) :
  first_existing fs l = Raise e →
  (e = FileNotFoundError not_found_message
   ∧ (∀ c, In c l → answer fs c = Ok false)
   ∧ checked fs l = l)
  ∨ ∃ pre q n, checked fs l = pre ++ [q] ∧ In q l
               ∧ fs q = Failed n ∧ _ignore_error n = false ∧ e = OSError n.
Proof.
  induction l as [|x l IH]; cbn [first_existing checked].
  - intros [= <-]. left. by repeat split.
  - destruct (answer fs x) as [[|]|e'] eqn:Hx; [done| |].
    + intros H. destruct (IH H) as [(-> & Hall & ->) | (pre & q & n & -> & Hq & Hn)].
      * left. split; [done|]. split; [|done].
        intros c [<-|Hc]; [done | by apply Hall].
      * right. exists (x :: pre), q, n. split; [done|]. split; [by right|].
        exact Hn.
    + intros [= <-]. right.
      destruct (answer_raise fs x e' Hx) as (n & Hn).
      exists [], x, n. split; [done|]. split; [by left | exact Hn].
Qed.

Lemma first_existing_find (fs : FileSystem) (l : list string) :
  (∀ q e, In q l → answer fs q ≠ Raise e) →
  first_existing fs l
  = match List.find (fun q => is_found (fs q)) l with
    | Some c => Ok c
    | None => Raise (FileNotFoundError not_found_message)
    end.
Proof.
  induction l as [|x l IH]; intros H; [done|]. cbn [first_existing List.find].
  pose proof (H x) as Hx. unfold answer, exists_answer in *.
  destruct (fs x) as [|n|]; cbn [is_found]; [done| |].
  - destruct (_ignore_error n).
    + apply IH. intros q e Hq. apply H. by right.
    + destruct (Hx (OSError n)); [by left | done].
  - apply IH. intros q e Hq. apply H. by right.
Qed.

Lemma search_order_incl (CSV_PATH : option string) (q : string) :
  In q (search_order (candidates REPO_ROOT) CSV_PATH) →
  CSV_PATH = Some q ∨ In q (candidates REPO_ROOT).
Proof.
  unfold search_order. destruct CSV_PATH as [p|]; [|by right].
  destruct (String.eqb p ""); [by right|]. intros [<-|H]; [by left | by right].
Qed.

(** X1: [find_csv] is one loop over [CSV_PATH], when that is set and
    not empty, followed by the six candidates: it checks them in this
    order and the first check that does not answer false decides, by
    the path being returned or by its [OSError] being raised; when every
    check answers false it raises [FileNotFoundError]. When no check
    raises, the result is the first existing path of that sequence. *)
Theorem find_csv_outcome (CSV_PATH : option string) (fs : FileSystem) :
  outcome (find_csv REPO_ROOT CSV_PATH) fs
  = first_existing fs (search_order (candidates REPO_ROOT) CSV_PATH)
  ∧ probes (find_csv REPO_ROOT CSV_PATH) fs
    = checked fs (search_order (candidates REPO_ROOT) CSV_PATH)
  ∧ ((∀ q e, In q (search_order (candidates REPO_ROOT) CSV_PATH) →
              answer fs q ≠ Raise e) →
     outcome (find_csv REPO_ROOT CSV_PATH) fs
     = match List.find (fun q => is_found (fs q))
               (search_order (candidates REPO_ROOT) CSV_PATH) with
       | Some c => Ok c
       | None => Raise (FileNotFoundError not_found_message)
       end).
Proof.
  unfold outcome, probes. rewrite find_csv_order. cbn [fst snd].
  split; [done|]. split; [done|]. apply first_existing_find.
Qed.

(** X2: a path that [find_csv] returns exists, and is [CSV_PATH] or one
    of the candidates. *)
Theorem find_csv_returns_existing
    (CSV_PATH : option string) (fs : FileSystem) (p : string) :
  outcome (find_csv REPO_ROOT CSV_PATH) fs = Ok p →
  fs p = Found ∧ (CSV_PATH = Some p ∨ In p (candidates REPO_ROOT)).
Proof.
  unfold outcome. rewrite find_csv_order. cbn [fst].
  intros (Hp & Hin & _)%first_existing_ok. split; [done|].
  by apply search_order_incl.
Qed.

(** X3: [find_csv] stops at the first path that exists: the path it
    returns is the last one it asked about, and every check before it
    answered that the path does not exist. *)
Theorem find_csv_stops_at_hit
    (CSV_PATH : option string) (fs : FileSystem) (p : string) :
  outcome (find_csv REPO_ROOT CSV_PATH) fs = Ok p →
  ∃ pre, probes (find_csv REPO_ROOT CSV_PATH) fs = pre ++ [p]
         ∧ ∀ q, In q pre → answer fs q = Ok false.
Proof.
  unfold outcome, probes. rewrite find_csv_order. cbn [fst snd].
  by intros (_ & _ & H)%first_existing_ok.
Qed.

(** X4: [find_csv] asks the file system about no path but [CSV_PATH]
    and the six candidates, and makes at most seven checks. *)
Theorem find_csv_checks_bounded (CSV_PATH : option string) (fs : FileSystem) :
  (∀ q, In q (probes (find_csv REPO_ROOT CSV_PATH) fs) →
        CSV_PATH = Some q ∨ In q (candidates REPO_ROOT))
  ∧ length (probes (find_csv REPO_ROOT CSV_PATH) fs) ≤ 7.
Proof.
  unfold probes. rewrite find_csv_order. cbn [snd]. split.
  - intros q Hq. apply search_order_incl. by apply (checked_incl fs).
  - pose proof (checked_length fs (search_order (candidates REPO_ROOT) CSV_PATH))
      as Hlen.
    assert (length (search_order (candidates REPO_ROOT) CSV_PATH) ≤ 7) as Hle.
    { unfold search_order. destruct CSV_PATH as [p|]; [|cbn; lia].
      destruct (String.eqb p ""); cbn; lia. }
    lia.
Qed.

(** X5: [find_csv] raises either its [FileNotFoundError], and then
    only after it has asked about every candidate, in the order of the
    list, each check answering that the path does not exist; or the
    [OSError] of the last check it made, with an error number that
    pathlib does not ignore. *)
Theorem find_csv_gives_up_last
    (CSV_PATH : option string) (fs : FileSystem) (e : exn) :
  outcome (find_csv REPO_ROOT CSV_PATH) fs = Raise e →
  (e = FileNotFoundError not_found_message
   ∧ (∀ c, In c (candidates REPO_ROOT) → answer fs c = Ok false)
   ∧ ∃ pre, probes (find_csv REPO_ROOT CSV_PATH) fs
            = pre ++ candidates REPO_ROOT)
  ∨ ∃ pre q n, probes (find_csv REPO_ROOT CSV_PATH) fs = pre ++ [q]
               ∧ fs q = Failed n ∧ _ignore_error n = false ∧ e = OSError n.
Proof.
  unfold outcome, probes. rewrite find_csv_order. cbn [fst snd].
  intros [(-> & Hall & ->) | (pre & q & n & -> & _ & Hn)]%first_existing_raise.
  - left. split; [done|]. unfold search_order in *.
    destruct CSV_PATH as [p|]; [|split; [done | by exists []]].
    destruct (String.eqb p ""); [split; [done | by exists []]|].
    split; [|by exists [p]]. intros c Hc. apply Hall. by right.
  - right. by exists pre, q, n.
Qed.

End FindMore.

(** ** Further properties of [guess_target_column] *)

Section GuessMore.

Variable safe_col : string -> string.

Lemma no_match_truthy (r : option string) : no_match r ↔ truthy r = false.
Proof.
  unfold no_match. destruct r as [[|c s]|]; cbn; split; try done; auto.
  intros [|]; done.
Qed.

Lemma resolve_described_none (df : DataFrame) (name : option string) :
  resolve_described safe_col df name = None
  ↔ no_match (_resolve safe_col df name).
Proof.
  rewrite <- resolve_truthy, no_match_truthy.
  destruct (_resolve safe_col df name) as [[|c s]|]; cbn; split; done.
Qed.

Lemma resolve_described_some (df : DataFrame) (name : option string) (c : string) :
  _resolve safe_col df name = Some c → c ≠ "" →
  resolve_described safe_col df name = Some c.
Proof.
  intros H Hc. rewrite <- resolve_truthy, H. by destruct c.
Qed.

Lemma strip_empty_name (p : string) : PyStr.strip p ≠ "" → PyStr.falsy p = false.
Proof. by destruct p. Qed.

(** *** Labels borne by several columns *)

Lemma getitem_frame (df : DataFrame) (c : string) :
  2 ≤ length (List.filter (fun kv => String.eqb (fst kv) c) df) →
  ∃ e, _is_binary_at df c = Raise e.
Proof.
  unfold _is_binary_at, getitem.
  destruct (List.filter _ df) as [|[k1 v1] [|kv2 sub]]; cbn [length]; [lia|lia|].
  intros _. destruct (String.eqb c "dtype"); eauto.
Qed.

Lemma repeated_label (df : DataFrame) :
  ¬ NoDup (columns df) →
  ∃ c, In c (columns df)
       ∧ 2 ≤ length (List.filter (fun kv => String.eqb (fst kv) c) df).
Proof.
  induction df as [|[k v] df IH]; cbn [columns map fst].
  - intros H. destruct H. constructor.
  - intros H. destruct (decide (k ∈ columns df)) as [Hk|Hk].
    + exists k. split; [by left|]. cbn [List.filter fst].
      rewrite String.eqb_refl. cbn [length].
      apply list_elem_of_In, in_map_iff in Hk as ([k' v'] & Heq & Hin).
      cbn [fst] in Heq. subst k'.
      assert (In (k, v') (List.filter (fun kv => String.eqb (fst kv) k) df)) as Hf.
      { apply filter_In. split; [done | apply String.eqb_refl]. }
      destruct (List.filter _ df); [done | cbn [length]; lia].
    + destruct IH as (c & Hc & Hlen).
      { intros Hnd. apply H. by apply NoDup_cons. }
      exists c. split; [by right|]. cbn [List.filter fst].
      destruct (String.eqb k c); cbn [length]; lia.
Qed.

Lemma binary_columns_raises (df : DataFrame) (cols : list string) (c : string) :
  In c cols → (∃ e, _is_binary_at df c = Raise e) →
  ∃ e, binary_columns df cols = Raise e.
Proof.
  intros Hin [e He]. induction cols as [|x cols IH]; [done|].
  cbn [binary_columns bind result_monad].
  destruct Hin as [->|Hin].
  - rewrite He. eauto.
  - destruct (_is_binary_at df x); [|eauto].
    destruct (IH Hin) as [e' ->]. eauto.
Qed.

Lemma fallback_repeated (df : DataFrame) :
  ¬ NoDup (columns df) → ∃ e, fallback df (columns df) = Raise e.
Proof.
  intros (c & Hc & Hlen)%repeated_label.
  destruct (binary_columns_raises df (columns df) c Hc (getitem_frame df c Hlen))
    as [e He].
  exists e. unfold fallback. by rewrite He.
Qed.

(** X10: [guess_target_column] raises exactly when the table has no
    column, or none of [preferred], [TARGET] and [IsInsurable] resolves
    to a non-empty name and two columns bear the same label. *)
Theorem guess_target_raises_iff
    (df : DataFrame) (preferred TARGET : option string) :
  (∃ e, guess_target_column safe_col df preferred TARGET = Raise e)
  ↔ columns df = []
    ∨ (no_match (_resolve safe_col df preferred)
       ∧ no_match (_resolve safe_col df TARGET)
       ∧ no_match (_resolve safe_col df (Some "IsInsurable"))
       ∧ ¬ NoDup (columns df)).
Proof.
  destruct (columns df) as [|c0 cs] eqn:Hcols.
  - unfold guess_target_column. rewrite Hcols. split; [by left | eauto].
  - assert (columns df ≠ []) as Hne by (by rewrite Hcols).
    rewrite (guess_explicit safe_col df preferred TARGET Hne), <- Hcols.
    rewrite <- !resolve_described_none.
    unfold first_success. cbn [fold_right].
    destruct (resolve_described safe_col df preferred) as [x|].
    { split; [by intros [e H] | by intros [|[H _]]]. }
    destruct (resolve_described safe_col df TARGET) as [x|].
    { split; [by intros [e H] | by intros [|(_ & H & _)]]. }
    destruct (resolve_described safe_col df (Some "IsInsurable")) as [x|].
    { split; [by intros [e H] | by intros [|(_ & _ & H & _)]]. }
    split.
    + intros [e He]. right. repeat split; try done. intros Hnd.
      destruct (fallback_described df Hne Hnd) as (c & _ & Hc). congruence.
    + intros [|(_ & _ & _ & Hdup)]; [done|]. by apply fallback_repeated.
Qed.

(** X11: when [preferred], trimmed, is a non-empty label of the table,
    it is the result, whatever [TARGET] is and whatever the columns
    hold. *)
Theorem preferred_exact_wins (df : DataFrame) (p : string) (TARGET : option string) :
  In (PyStr.strip p) (columns df) → PyStr.strip p ≠ "" →
  guess_target_column safe_col df (Some p) TARGET = Ok (PyStr.strip p).
Proof.
  intros Hin Hne.
  assert (columns df ≠ []) as Hcols by (by destruct (columns df)).
  rewrite (guess_explicit safe_col df (Some p) TARGET Hcols).
  rewrite (resolve_described_some df (Some p) (PyStr.strip p)); [done| |done].
  unfold _resolve. rewrite (strip_empty_name p Hne). cbn [List.find].
  apply has_column_In in Hin. by rewrite Hin.
Qed.

(** X12: when [preferred] is not empty, its trimmed form is no label of
    the table and the sanitized form of that is a non-empty label, the
    sanitized form is the result. *)
Theorem preferred_sanitized_wins
    (df : DataFrame) (p : string) (TARGET : option string) :
  p ≠ "" →
  ¬ In (PyStr.strip p) (columns df) →
  In (safe_col (PyStr.strip p)) (columns df) →
  safe_col (PyStr.strip p) ≠ "" →
  guess_target_column safe_col df (Some p) TARGET
  = Ok (safe_col (PyStr.strip p)).
Proof.
  intros Hp Hno Hin Hne.
  assert (columns df ≠ []) as Hcols by (by destruct (columns df)).
  rewrite (guess_explicit safe_col df (Some p) TARGET Hcols).
  rewrite (resolve_described_some df (Some p) (safe_col (PyStr.strip p)));
    [done| |done].
  unfold _resolve, PyStr.falsy. destruct (String.eqb_spec p ""); [done|].
  cbn [List.find].
  destruct (has_column df (PyStr.strip p)) eqn:Hex.
  - apply has_column_In in Hex. done.
  - apply has_column_In in Hin. by rewrite Hin.
Qed.

(** X13: when [preferred] does not resolve to a non-empty name and
    [TARGET], trimmed, is a non-empty label of the table, [TARGET]
    trimmed is the result, also on a table with a column [IsInsurable]. *)
Theorem target_beats_default
    (df : DataFrame) (preferred : option string) (t : string) :
  no_match (_resolve safe_col df preferred) →
  In (PyStr.strip t) (columns df) → PyStr.strip t ≠ "" →
  guess_target_column safe_col df preferred (Some t) = Ok (PyStr.strip t).
Proof.
  intros Hpref Hin Hne.
  assert (columns df ≠ []) as Hcols by (by destruct (columns df)).
  rewrite (guess_explicit safe_col df preferred (Some t) Hcols).
  apply resolve_described_none in Hpref. rewrite Hpref.
  rewrite (resolve_described_some df (Some t) (PyStr.strip t)); [done| |done].
  unfold _resolve. rewrite (strip_empty_name t Hne). cbn [List.find].
  apply has_column_In in Hin. by rewrite Hin.
Qed.

(** X14: when neither [preferred] nor [TARGET] resolves to a non-empty
    name and the table has a column [IsInsurable], that column is the
    result, whatever the columns hold. *)
Theorem default_target (df : DataFrame) (preferred TARGET : option string) :
  no_match (_resolve safe_col df preferred) →
  no_match (_resolve safe_col df TARGET) →
  In "IsInsurable" (columns df) →
  guess_target_column safe_col df preferred TARGET = Ok "IsInsurable".
Proof.
  intros Hpref Htarget Hin.
  assert (columns df ≠ []) as Hcols by (by destruct (columns df)).
  rewrite (guess_explicit safe_col df preferred TARGET Hcols).
  apply resolve_described_none in Hpref, Htarget. rewrite Hpref, Htarget.
  rewrite (resolve_described_some df (Some "IsInsurable") "IsInsurable");
    [done| |done].
  unfold _resolve. cbn [PyStr.falsy String.eqb].
  change (PyStr.strip "IsInsurable") with "IsInsurable". cbn [List.find].
  apply has_column_In in Hin. by rewrite Hin.
Qed.

(** X15: on a table with pairwise distinct labels, when no name
    resolves and some column is binary, the result is a binary column;
    and when the lower-cased name of some binary column starts with i,
    so does the lower-cased name of the result. *)
Theorem heuristic_picks_binary
    (df : DataFrame) (preferred TARGET : option string)
    (c0 : string) (s0 : Series) :
  NoDup (columns df) →
  no_match (_resolve safe_col df preferred) →
  no_match (_resolve safe_col df TARGET) →
  no_match (_resolve safe_col df (Some "IsInsurable")) →
  In (c0, s0) df → _is_binary s0 = true →
  ∃ c s, guess_target_column safe_col df preferred TARGET = Ok c
         ∧ In (c, s) df ∧ _is_binary s = true
         ∧ (PyStr.startswith (PyStr.lower c0) "i" = true →
            PyStr.startswith (PyStr.lower c) "i" = true).
Proof.
  intros Hnd H1 H2 H3 Hin Hbin.
  setoid_rewrite starts_with_I_lower.
  assert (columns df ≠ []) as Hcols.
  { intros Hnil. destruct df; [done | discriminate Hnil]. }
  rewrite (guess_explicit safe_col df preferred TARGET Hcols).
  apply resolve_described_none in H1, H2, H3. rewrite H1, H2, H3.
  unfold first_success. cbn [fold_right].
  destruct (fallback_described df Hcols Hnd) as (c & Hsel & ->).
  unfold first_success, first_binary in Hsel. cbn [fold_right] in Hsel.
  destruct (List.find (fun kv => _is_binary (snd kv) && starts_with_I (fst kv)) df)
    as [[k v]|] eqn:HI; cbn [fmap option_fmap option_map fst] in Hsel.
  - injection Hsel as <-. apply find_some in HI as [HIn Hp].
    cbn [fst snd] in Hp. apply andb_true_iff in Hp as [Hb Hi].
    by exists k, v.
  - destruct (List.find (fun kv => _is_binary (snd kv) && true) df)
      as [[k v]|] eqn:HB; cbn [fmap option_fmap option_map fst] in Hsel.
    + injection Hsel as <-. apply find_some in HB as [HIn Hp].
      cbn [fst snd] in Hp. apply andb_true_iff in Hp as [Hb _].
      exists k, v. repeat split; try done. intros Hi.
      pose proof (find_none _ _ HI (c0, s0) Hin) as Hn. cbn [fst snd] in Hn.
      rewrite Hbin, Hi in Hn. done.
    + pose proof (find_none _ _ HB (c0, s0) Hin) as Hn. cbn [fst snd] in Hn.
      rewrite Hbin in Hn. done.
Qed.

End GuessMore.

(** ** Further properties of [load_dataset] and of the two calls in sequence *)

Section LoadMore.

Variable REPO_ROOT : string.
Variable safe_col : string -> string.
Variable read_csv : string -> result DataFrame.

Lemma load_dataset_run (CSV_PATH : option string) (fs : FileSystem) :
  load_dataset REPO_ROOT read_csv CSV_PATH fs
  = (match outcome (find_csv REPO_ROOT CSV_PATH) fs with
     | Ok path =>
         match read_csv path with
         | Ok df => Ok (adjusted df)
         | Raise e => Raise e
         end
     | Raise e => Raise e
     end,
     probes (find_csv REPO_ROOT CSV_PATH) fs).
Proof.
  unfold load_dataset, outcome, probes, adjusted. cbn [bind io_monad].
  destruct (find_csv REPO_ROOT CSV_PATH fs) as [[path|e] log]; cbn [fst snd]; [|done].
  destruct (read_csv path) as [df|e]; cbn [raise].
  - destruct (negb (has_column df "IsInsurable") && has_column df "SLA_Breached");
      cbn [ret io_monad]; by rewrite app_nil_r.
  - by rewrite app_nil_r.
Qed.

Lemma rename_fresh_NoDup (old new : string) (l : list string) :
  NoDup l → ¬ In new l →
  NoDup (map (fun c => if String.eqb c old then new else c) l).
Proof.
  induction l as [|x l IH]; intros Hnd Hnew; cbn [map]; [constructor|].
  apply NoDup_cons in Hnd as [Hx Hnd]. rewrite list_elem_of_In in Hx.
  apply NoDup_cons. split.
  - rewrite list_elem_of_In. intros (y & Hy & Hin)%in_map_iff. revert Hy.
    destruct (String.eqb_spec x old) as [->|Hxo];
      destruct (String.eqb_spec y old) as [->|Hyo]; intros Hy.
    + done.
    + subst y. apply Hnew. by right.
    + subst x. apply Hnew. by left.
    + by subst y.
  - apply IH; [done|]. intros H. apply Hnew. by right.
Qed.

Lemma adjusted_labels (df : DataFrame) :
  columns (adjusted df)
  = if negb (has_column df "IsInsurable") && has_column df "SLA_Breached"
    then map renamed_label (columns df) else columns df.
Proof.
  unfold adjusted.
  destruct (negb (has_column df "IsInsurable") && has_column df "SLA_Breached");
    [|done].
  by rewrite rename_labels.
Qed.

Lemma adjusted_has_target (df : DataFrame) :
  In "IsInsurable" (columns (adjusted df))
  ↔ In "IsInsurable" (columns df) ∨ In "SLA_Breached" (columns df).
Proof.
  rewrite adjusted_labels.
  destruct (has_column df "IsInsurable") eqn:Hins; cbn [negb andb].
  - apply has_column_In in Hins. split; [by left | done].
  - assert (¬ In "IsInsurable" (columns df)) as Hno.
    { intros H%has_column_In. congruence. }
    destruct (has_column df "SLA_Breached") eqn:Hsla.
    + apply has_column_In in Hsla. split; [by right|]. intros _.
      apply in_map_iff. by exists "SLA_Breached".
    + assert (¬ In "SLA_Breached" (columns df)) as Hno'.
      { intros H%has_column_In. congruence. }
      split; [done | by intros [|]].
Qed.

Lemma adjusted_NoDup (df : DataFrame) :
  NoDup (columns df) → NoDup (columns (adjusted df)).
Proof.
  intros Hnd. rewrite adjusted_labels.
  destruct (has_column df "IsInsurable") eqn:Hins; cbn [negb andb]; [done|].
  destruct (has_column df "SLA_Breached"); [|done].
  apply rename_fresh_NoDup; [done|]. intros H%has_column_In. congruence.
Qed.

Lemma adjusted_length (df : DataFrame) : length (adjusted df) = length df.
Proof.
  unfold adjusted, rename_column.
  destruct (negb (has_column df "IsInsurable") && has_column df "SLA_Breached");
    [apply length_map | done].
Qed.

Lemma loaded_inv
    (CSV_PATH : option string) (fs : FileSystem) (df' : DataFrame) :
  outcome (load_dataset REPO_ROOT read_csv CSV_PATH) fs = Ok df' →
  ∃ path df, outcome (find_csv REPO_ROOT CSV_PATH) fs = Ok path
             ∧ read_csv path = Ok df ∧ df' = adjusted df.
Proof.
  unfold outcome at 1. rewrite load_dataset_run. cbn [fst].
  destruct (outcome (find_csv REPO_ROOT CSV_PATH) fs) as [path|e]; [|done].
  destruct (read_csv path) as [df|e] eqn:Hread; [|done].
  intros [= <-]. by exists path, df.
Qed.

(** X6: [load_dataset] raises exactly the exception of [find_csv], or,
    when [find_csv] returns a path, the exception of [pd.read_csv] on
    that path; it has no failure of its own. *)
Theorem load_dataset_errors
    (CSV_PATH : option string) (fs : FileSystem) (e : exn) :
  outcome (load_dataset REPO_ROOT read_csv CSV_PATH) fs = Raise e
  ↔ outcome (find_csv REPO_ROOT CSV_PATH) fs = Raise e
    ∨ ∃ path, outcome (find_csv REPO_ROOT CSV_PATH) fs = Ok path
              ∧ read_csv path = Raise e.
Proof.
  unfold outcome at 1. rewrite load_dataset_run. cbn [fst].
  destruct (outcome (find_csv REPO_ROOT CSV_PATH) fs) as [path|e0].
  - destruct (read_csv path) as [df|e1] eqn:Hread.
    + split; [done|]. intros [|(p & [= <-] & H)]; [done | congruence].
    + split.
      * intros [= <-]. right. by exists path.
      * intros [|(p & [= <-] & H)]; [done | congruence].
  - split; [intros [= ->]; by left|]. by intros [[= ->]|(p & H & _)].
Qed.

(** X7: a table that [load_dataset] returns never has a column
    [SLA_Breached] without a column [IsInsurable]. *)
Theorem load_dataset_no_legacy_alone
    (CSV_PATH : option string) (fs : FileSystem) (df' : DataFrame) :
  outcome (load_dataset REPO_ROOT read_csv CSV_PATH) fs = Ok df' →
  In "SLA_Breached" (columns df') → In "IsInsurable" (columns df').
Proof.
  intros (path & df & _ & _ & ->)%loaded_inv. rewrite adjusted_labels.
  destruct (has_column df "IsInsurable") eqn:Hins; cbn [negb andb].
  - intros _. by apply has_column_In.
  - destruct (has_column df "SLA_Breached") eqn:Hsla.
    + intros _. apply in_map_iff. exists "SLA_Breached". split; [done|].
      by apply has_column_In.
    + intros H%has_column_In. congruence.
Qed.

(** X8: [load_dataset] keeps the number of columns of the parsed
    table; and when the labels of the parsed table are pairwise distinct
    so are those of the table it returns. *)
Theorem load_dataset_keeps_distinct
    (CSV_PATH : option string) (fs : FileSystem) (path : string)
    (df : DataFrame) :
  outcome (find_csv REPO_ROOT CSV_PATH) fs = Ok path →
  read_csv path = Ok df →
  ∃ df', outcome (load_dataset REPO_ROOT read_csv CSV_PATH) fs = Ok df'
         ∧ length df' = length df
         ∧ (NoDup (columns df) → NoDup (columns df')).
Proof.
  intros Hpath Hread. exists (adjusted df). split; [|split].
  - unfold outcome at 1. rewrite load_dataset_run. cbn [fst]. by rewrite Hpath, Hread.
  - apply adjusted_length.
  - apply adjusted_NoDup.
Qed.

(** X9: the table [load_dataset] returns has a column [IsInsurable]
    exactly when the parsed table has a column [IsInsurable] or a column
    [SLA_Breached]. *)
Theorem load_dataset_target_present
    (CSV_PATH : option string) (fs : FileSystem) (path : string)
    (df : DataFrame) :
  outcome (find_csv REPO_ROOT CSV_PATH) fs = Ok path →
  read_csv path = Ok df →
  ∃ df', outcome (load_dataset REPO_ROOT read_csv CSV_PATH) fs = Ok df'
         ∧ (In "IsInsurable" (columns df')
            ↔ In "IsInsurable" (columns df) ∨ In "SLA_Breached" (columns df)).
Proof.
  intros Hpath Hread. exists (adjusted df). split.
  - unfold outcome at 1. rewrite load_dataset_run. cbn [fst]. by rewrite Hpath, Hread.
  - apply adjusted_has_target.
Qed.

Lemma guess_returns_label (df : DataFrame) (preferred TARGET : option string) :
  columns df ≠ [] → NoDup (columns df) →
  ∃ c, guess_target_column safe_col df preferred TARGET = Ok c
       ∧ In c (columns df).
Proof.
  intros Hne Hnd. rewrite (guess_explicit safe_col df preferred TARGET Hne).
  unfold first_success. cbn [fold_right].
  destruct (resolve_described safe_col df preferred) as [x|] eqn:H1.
  { exists x. split; [done | by apply resolve_described_In in H1]. }
  destruct (resolve_described safe_col df TARGET) as [x|] eqn:H2.
  { exists x. split; [done | by apply resolve_described_In in H2]. }
  destruct (resolve_described safe_col df (Some "IsInsurable")) as [x|] eqn:H3.
  { exists x. split; [done | by apply resolve_described_In in H3]. }
  destruct (fallback_described df Hne Hnd) as (c & _ & Hc).
  exists c. split; [done | by apply (fallback_In df)].
Qed.

(** X16: for a file whose parsed table has a column [SLA_Breached] or a
    column [IsInsurable], [guess_target_column] on the table that
    [load_dataset] returns, without [preferred] and [TARGET], gives
    [IsInsurable]. *)
Theorem loaded_legacy_target
    (CSV_PATH : option string) (fs : FileSystem) (path : string)
    (df : DataFrame) :
  outcome (find_csv REPO_ROOT CSV_PATH) fs = Ok path →
  read_csv path = Ok df →
  In "SLA_Breached" (columns df) ∨ In "IsInsurable" (columns df) →
  ∃ df', outcome (load_dataset REPO_ROOT read_csv CSV_PATH) fs = Ok df'
         ∧ guess_target_column safe_col df' None None = Ok "IsInsurable".
Proof.
  intros Hpath Hread Hcol. exists (adjusted df). split.
  - unfold outcome at 1. rewrite load_dataset_run. cbn [fst]. by rewrite Hpath, Hread.
  - assert (In "IsInsurable" (columns (adjusted df))) as Hin.
    { apply adjusted_has_target. destruct Hcol; auto. }
    assert (columns (adjusted df) ≠ []) as Hne by (by destruct (columns (adjusted df))).
    rewrite (guess_explicit safe_col _ None None Hne).
    rewrite (resolve_described_some safe_col (adjusted df)
               (Some "IsInsurable") "IsInsurable"); [done| |done].
    unfold _resolve. cbn [PyStr.falsy String.eqb].
    change (PyStr.strip "IsInsurable") with "IsInsurable". cbn [List.find].
    apply has_column_In in Hin. by rewrite Hin.
Qed.

(** X17: for a file whose parsed table has at least one column and
    pairwise distinct labels, [load_dataset] followed by
    [guess_target_column] returns a label of the loaded table, whatever
    [preferred] and [TARGET] are. *)
Theorem loaded_target_found
    (CSV_PATH : option string) (fs : FileSystem) (path : string)
    (df : DataFrame) (preferred TARGET : option string) :
  outcome (find_csv REPO_ROOT CSV_PATH) fs = Ok path →
  read_csv path = Ok df →
  df ≠ [] → NoDup (columns df) →
  ∃ df' c, outcome (load_dataset REPO_ROOT read_csv CSV_PATH) fs = Ok df'
           ∧ guess_target_column safe_col df' preferred TARGET = Ok c
           ∧ In c (columns df').
Proof.
  intros Hpath Hread Hne Hnd.
  assert (columns (adjusted df) ≠ []) as Hcols.
  { intros Hnil. apply (f_equal (@length _)) in Hnil.
    unfold columns in Hnil. rewrite length_map, adjusted_length in Hnil.
    by destruct df. }
  destruct (guess_returns_label (adjusted df) preferred TARGET Hcols
              (adjusted_NoDup df Hnd)) as (c & Hc & Hin).
  exists (adjusted df), c. split; [|done].
  unfold outcome at 1. rewrite load_dataset_run. cbn [fst]. by rewrite Hpath, Hread.
Qed.

End LoadMore.

(** ** Further properties of [_is_binary] *)

Section BinaryMore.

Lemma dropna_In (l : list cell) (v : cell) : In v (dropna l) ↔ In v l ∧ v ≠ NA.
Proof.
  unfold dropna. rewrite filter_In.
  destruct v; cbn [isna negb]; split; intros [H1 H2]; (split; [done|]); done.
Qed.

Lemma nonempty_In {A} (l : list A) : l ≠ [] ↔ ∃ v, In v l.
Proof.
  destruct l as [|a l]; split; try done.
  - by intros [v Hv].
  - intros _. exists a. by left.
Qed.

Lemma value_set_In (l : list cell) (k : option (Z + string)) :
  k ∈ value_set l ↔ ∃ v, In v l ∧ value_key v = k.
Proof.
  unfold value_set. rewrite elem_of_list_to_set, list_elem_of_fmap. split.
  - intros (v & -> & Hv). exists v. by rewrite <- list_elem_of_In.
  - intros (v & Hv & <-). exists v. by rewrite list_elem_of_In.
Qed.

(** X18: [_is_binary] depends on the dtype of a column and on which
    non-missing values occur in it, not on their order, their number of
    occurrences or the missing values between them. *)
Theorem is_binary_same_values (s s' : Series) :
  dtype s = dtype s' →
  (∀ v, v ≠ NA → (In v (values s) ↔ In v (values s'))) →
  _is_binary s = _is_binary s'.
Proof.
  intros Hd Hv.
  assert (∀ v, In v (dropna (values s)) ↔ In v (dropna (values s'))) as HD.
  { intros v. rewrite !dropna_In. split; intros [H Hna]; (split; [|done]); by apply Hv. }
  assert (value_set (dropna (values s)) = value_set (dropna (values s'))) as Hset.
  { apply set_eq. intros k. rewrite !value_set_In.
    split; intros (v & Hin & Hk); exists v; (split; [|done]); by apply HD. }
  apply Bool.eq_iff_eq_true.
  unfold _is_binary. rewrite <- Hd.
  destruct (dtype s); cbn [dtype_eqb]; [done| |];
    rewrite !is_binary_values; unfold few_values, yes_no_values;
    rewrite Hset, !nonempty_In;
    (split; intros [[v Hne] Hc]; (split; [exists v; by apply HD|]);
     (destruct Hc as [Hc|Hc]; [by left | right; intros w Hw; apply Hc; by apply HD])).
Qed.

(** *** Columns of integers *)

Lemma plain_strip (s : string) : plain s = true → PyStr.strip s = s.
Proof.
  intros Hs. unfold PyStr.strip.
  assert (PyStr.lstrip s = s) as ->.
  { destruct s as [|c s]; [done|]. cbn [plain PyStr.lstrip] in *.
    by destruct (PyStr.isspace c). }
  induction s as [|c s IH]; [done|]. cbn [plain] in Hs.
  apply andb_true_iff in Hs as [Hc Hs]. apply andb_true_iff in Hc as [Hc _].
  cbn [PyStr.rstrip]. rewrite (IH Hs).
  destruct s; [|done]. by destruct (PyStr.isspace c).
Qed.

Lemma plain_lower (s : string) : plain s = true → PyStr.lower s = s.
Proof.
  induction s as [|c s IH]; [done|]. cbn [plain PyStr.lower]. intros Hs.
  apply andb_true_iff in Hs as [Hc Hs]. apply andb_true_iff in Hc as [_ Hc].
  apply Ascii.eqb_eq in Hc. by rewrite Hc, IH.
Qed.

Lemma plain_uint (d : Decimal.uint) : plain (NilEmpty.string_of_uint d) = true.
Proof. induction d; cbn [NilEmpty.string_of_uint plain]; [done | by rewrite IHd ..]. Qed.

Lemma plain_of_int (z : Z) : plain (PyStr.of_int z) = true.
Proof.
  unfold PyStr.of_int, NilZero.string_of_int, NilZero.string_of_uint.
  destruct (Z.to_int z) as [d|d]; destruct d; try done;
    cbn [plain NilEmpty.string_of_uint]; by rewrite plain_uint.
Qed.

Lemma of_int_read (z : Z) :
  NilZero.int_of_string (PyStr.of_int z) = Some (Z.to_int z).
Proof.
  unfold PyStr.of_int. apply NilZero.isi.
  - destruct z as [|p|p]; [done| |done]. cbn [Z.to_int]. intros [= H].
    by apply DecimalPos.Unsigned.to_uint_nonnil in H.
  - destruct z as [|p|p]; [done|done|]. cbn [Z.to_int]. intros [= H].
    by apply DecimalPos.Unsigned.to_uint_nonnil in H.
Qed.

Lemma int_word (z : Z) :
  blank (VInt z) = false
  ∧ (normalised (VInt z) ∈ binary_words → z = 0%Z ∨ z = 1%Z).
Proof.
  unfold blank, normalised. cbn [py_str].
  rewrite (plain_strip _ (plain_of_int z)), (plain_lower _ (plain_of_int z)).
  pose proof (of_int_read z) as Hread. split.
  - destruct (String.eqb_spec (PyStr.of_int z) ""); [|done].
    rewrite e in Hread. done.
  - unfold binary_words. rewrite !elem_of_union, !elem_of_singleton.
    intros H.
    repeat match type of H with _ ∨ _ => destruct H as [H|H] end;
      rewrite H in Hread;
      match type of Hread with
      | ?l = _ => let v := eval vm_compute in l in change l with v in Hread
      end;
      try done; injection Hread as Hread.
    + left. apply DecimalZ.to_int_inj. by rewrite <- Hread.
    + right. apply DecimalZ.to_int_inj. by rewrite <- Hread.
Qed.

(** X19: a column of integers that is not natively boolean is binary
    exactly when it has one or two distinct values; three distinct
    integers are never binary, also when 0 and 1 are among them. *)
Theorem is_binary_int_column (s : Series) :
  dtype s ≠ np_bool →
  (∀ v, In v (values s) → ∃ z, v = VInt z) →
  _is_binary s = true ↔ values s ≠ [] ∧ size (value_set (values s)) ≤ 2.
Proof.
  intros Hd Hint.
  assert (dropna (values s) = values s) as HD.
  { unfold dropna. apply forallb_filter_id, forallb_forall.
    intros v Hv. by destruct (Hint v Hv) as [z ->]. }
  unfold _is_binary.
  assert (dtype_eqb (dtype s) np_bool = false) as -> by (by destruct (dtype s)).
  rewrite is_binary_values, HD. unfold few_values.
  split; [|intros [Hne Hfew]; by auto].
  intros [Hne [Hfew|Hyn]]; [done|]. split; [done|].
  transitivity (size ({[Some (inl 0%Z); Some (inl 1%Z)]} : gset (option (Z + string)))).
  - apply subseteq_size. intros k (v & Hv & <-)%value_set_In.
    destruct (Hint v Hv) as [z ->]. destruct (int_word z) as [Hb Hw].
    destruct (Hw (Hyn _ Hv Hb)) as [-> | ->]; cbn [value_key]; set_solver.
  - rewrite size_union by set_solver. by rewrite !size_singleton.
Qed.

End BinaryMore.

(** ** Whitespace around an explicit name *)

Section Whitespace.

Variable safe_col : string -> string.

Lemma rstrip_cons (c : ascii) (s : string) :
  PyStr.rstrip (String c s)
  = match PyStr.rstrip s with
    | EmptyString => if PyStr.isspace c then EmptyString else String c EmptyString
    | r => String c r
    end.
Proof. reflexivity. Qed.

Lemma rstrip_idem (s : string) : PyStr.rstrip (PyStr.rstrip s) = PyStr.rstrip s.
Proof.
  induction s as [|c s IH]; [done|]. rewrite rstrip_cons.
  destruct (PyStr.rstrip s) as [|d r] eqn:Hr.
  - destruct (PyStr.isspace c) eqn:Hc; [done|]. rewrite rstrip_cons.
    cbn [PyStr.rstrip]. by rewrite Hc.
  - rewrite rstrip_cons. by rewrite IH.
Qed.

Lemma lstrip_head (s : string) :
  PyStr.lstrip s = ""
  ∨ ∃ c r, PyStr.lstrip s = String c r ∧ PyStr.isspace c = false.
Proof.
  induction s as [|c s IH]; [by left|]. cbn [PyStr.lstrip].
  destruct (PyStr.isspace c) eqn:Hc; [done|]. right. by exists c, s.
Qed.

Lemma strip_idem (s : string) : PyStr.strip (PyStr.strip s) = PyStr.strip s.
Proof.
  unfold PyStr.strip.
  destruct (lstrip_head s) as [-> | (c & r & -> & Hc)]; [done|].
  assert (PyStr.lstrip (PyStr.rstrip (String c r)) = PyStr.rstrip (String c r)) as ->.
  { rewrite rstrip_cons. destruct (PyStr.rstrip r); rewrite ?Hc;
      cbn [PyStr.lstrip]; by rewrite Hc. }
  apply rstrip_idem.
Qed.

Lemma resolve_trimmed (df : DataFrame) (p : string) :
  PyStr.strip p ≠ "" →
  _resolve safe_col df (Some (PyStr.strip p)) = _resolve safe_col df (Some p).
Proof.
  intros Hne. unfold _resolve, PyStr.falsy. rewrite strip_idem.
  destruct (String.eqb_spec (PyStr.strip p) ""); [done|].
  destruct (String.eqb_spec p "") as [->|]; [done | done].
Qed.

(** X20: whitespace around [preferred] and around [TARGET] does not
    change the result, as long as something is left of each name once
    it is trimmed. *)
Theorem surrounding_whitespace_ignored (df : DataFrame) (p t : string) :
  PyStr.strip p ≠ "" → PyStr.strip t ≠ "" →
  guess_target_column safe_col df (Some (PyStr.strip p)) (Some (PyStr.strip t))
  = guess_target_column safe_col df (Some p) (Some t).
Proof.
  intros Hp Ht. unfold guess_target_column. by rewrite !resolve_trimmed.
Qed.

End Whitespace.

(** ** The further properties at sample inputs *)

Lemma find_csv_returns_existing_witness :
  Sample.only_demo Case.demo = Found
  ∧ (Some "missing.csv" = Some Case.demo ∨ In Case.demo (candidates "/repo")).
Proof.
  apply (find_csv_returns_existing "/repo" (Some "missing.csv") Sample.only_demo).
  reflexivity.
Defined.

Lemma find_csv_stops_at_hit_witness :
  ∃ pre, probes (find_csv "/repo" (Some "missing.csv")) Sample.only_demo
         = pre ++ [Case.demo]
         ∧ ∀ q, In q pre → answer Sample.only_demo q = Ok false.
Proof.
  apply (find_csv_stops_at_hit "/repo" (Some "missing.csv") Sample.only_demo).
  reflexivity.
Defined.

Lemma find_csv_gives_up_last_witness :
  (OSError ENAMETOOLONG = FileNotFoundError not_found_message
   ∧ (∀ c, In c (candidates "/repo") →
           answer (Sample.name_limit Sample.only_demo) c = Ok false)
   ∧ ∃ pre, probes (find_csv "/repo" (Some Sample.too_long))
              (Sample.name_limit Sample.only_demo)
            = pre ++ candidates "/repo")
  ∨ ∃ pre q n, probes (find_csv "/repo" (Some Sample.too_long))
                 (Sample.name_limit Sample.only_demo) = pre ++ [q]
               ∧ Sample.name_limit Sample.only_demo q = Failed n
               ∧ _ignore_error n = false ∧ OSError ENAMETOOLONG = OSError n.
Proof.
  apply (find_csv_gives_up_last "/repo" (Some Sample.too_long)
           (Sample.name_limit Sample.only_demo)).
  by vm_compute.
Defined.

Lemma load_dataset_no_legacy_alone_witness : In "IsInsurable" (columns Case.both).
Proof.
  apply (load_dataset_no_legacy_alone "/repo" Case.read_both None
           Sample.only_demo Case.both).
  - reflexivity.
  - by left.
Defined.

Lemma load_dataset_keeps_distinct_witness :
  ∃ df', outcome (load_dataset "/repo" Sample.read_legacy None) Sample.only_demo
         = Ok df'
         ∧ length df' = length Sample.legacy
         ∧ (NoDup (columns Sample.legacy) → NoDup (columns df')).
Proof.
  apply (load_dataset_keeps_distinct "/repo" Sample.read_legacy None
           Sample.only_demo Case.demo Sample.legacy).
  - reflexivity.
  - reflexivity.
Defined.

Lemma load_dataset_target_present_witness :
  ∃ df', outcome (load_dataset "/repo" Sample.read_legacy None) Sample.only_demo
         = Ok df'
         ∧ (In "IsInsurable" (columns df')
            ↔ In "IsInsurable" (columns Sample.legacy)
              ∨ In "SLA_Breached" (columns Sample.legacy)).
Proof.
  apply (load_dataset_target_present "/repo" Sample.read_legacy None
           Sample.only_demo Case.demo Sample.legacy).
  - reflexivity.
  - reflexivity.
Defined.

Lemma preferred_exact_wins_witness :
  guess_target_column Sample.sanitize Sample.fraud (Some " Amount ") (Some "id")
  = Ok "Amount".
Proof.
  apply (preferred_exact_wins Sample.sanitize Sample.fraud " Amount " (Some "id")).
  - right. right. by left.
  - done.
Defined.

Lemma preferred_sanitized_wins_witness :
  guess_target_column Sample.sanitize Case.lowercase (Some "IsFraud") None
  = Ok "isfraud".
Proof.
  apply (preferred_sanitized_wins Sample.sanitize Case.lowercase "IsFraud" None).
  - done.
  - intros [H|[H|[]]]; discriminate H.
  - right. by left.
  - done.
Defined.

Lemma target_beats_default_witness :
  guess_target_column Sample.sanitize Case.insured (Some "missing") (Some "Amount")
  = Ok "Amount".
Proof.
  apply (target_beats_default Sample.sanitize Case.insured (Some "missing") "Amount").
  - by left.
  - right. by left.
  - done.
Defined.

Lemma default_target_witness :
  guess_target_column Sample.sanitize Case.insured (Some "missing") None
  = Ok "IsInsurable".
Proof.
  apply (default_target Sample.sanitize Case.insured (Some "missing") None).
  - by left.
  - by left.
  - by left.
Defined.

Lemma heuristic_picks_binary_witness :
  ∃ c s, guess_target_column Sample.sanitize Sample.fraud None None = Ok c
         ∧ In (c, s) Sample.fraud ∧ _is_binary s = true
         ∧ (PyStr.startswith (PyStr.lower "IsFraud") "i" = true →
            PyStr.startswith (PyStr.lower c) "i" = true).
Proof.
  apply (heuristic_picks_binary Sample.sanitize Sample.fraud None None
           "IsFraud" Sample.flags).
  - by apply (bool_decide_unpack _).
  - by left.
  - by left.
  - by left.
  - right. by left.
  - reflexivity.
Defined.

Lemma loaded_legacy_target_witness :
  ∃ df', outcome (load_dataset "/repo" Sample.read_legacy None) Sample.only_demo
         = Ok df'
         ∧ guess_target_column Sample.sanitize df' None None = Ok "IsInsurable".
Proof.
  apply (loaded_legacy_target "/repo" Sample.sanitize Sample.read_legacy None
           Sample.only_demo Case.demo Sample.legacy).
  - reflexivity.
  - reflexivity.
  - left. right. by left.
Defined.

Lemma loaded_target_found_witness :
  ∃ df' c,
    outcome (load_dataset "/repo" Sample.read_legacy None) Sample.only_demo
    = Ok df'
    ∧ guess_target_column Sample.sanitize df' (Some "Amount") None = Ok c
    ∧ In c (columns df').
Proof.
  apply (loaded_target_found "/repo" Sample.sanitize Sample.read_legacy None
           Sample.only_demo Case.demo Sample.legacy (Some "Amount") None).
  - reflexivity.
  - reflexivity.
  - done.
  - by apply (bool_decide_unpack _).
Defined.

Lemma is_binary_same_values_witness :
  _is_binary Sample.answers = _is_binary Case.shuffled.
Proof.
  apply (is_binary_same_values Sample.answers Case.shuffled).
  - reflexivity.
  - intros v Hv. cbn. intuition.
Defined.

Lemma is_binary_int_column_witness :
  _is_binary Sample.amounts = true
  ↔ values Sample.amounts ≠ [] ∧ size (value_set (values Sample.amounts)) ≤ 2.
Proof.
  apply (is_binary_int_column Sample.amounts).
  - done.
  - intros v [<-|[<-|[<-|[]]]]; eauto.
Defined.

Lemma surrounding_whitespace_ignored_witness :
  guess_target_column Sample.sanitize Sample.fraud
    (Some (PyStr.strip " Amount ")) (Some (PyStr.strip "id "))
  = guess_target_column Sample.sanitize Sample.fraud (Some " Amount ") (Some "id ").
Proof.
  apply (surrounding_whitespace_ignored Sample.sanitize Sample.fraud " Amount " "id ").
  - done.
  - done.
Defined.
